(** * Self-Preview: the render pipeline of [self_preview.py]

    A shallow embedding of [PreviewRenderer] (overlay helpers, the
    single-item pipeline [render_items], the overview composer
    [render_overview] and the orchestrator [run]) and of the
    [ExampleRenderer] shipped with it, together with the properties the
    specification states about them.

    Modelling conventions.
    - Python [int] is [Z]; [%] and [//] with a positive divisor are
      [Z.modulo] and [Z.div] (both round towards minus infinity).
    - Python's [float] is IEEE binary64.  Module [Float64] defines its
      rounding exactly (a number is kept as a multiple of [2^-1074]) and
      gives lines 187-188 as the script computes them; module [Grid]
      gives the same two lines in exact arithmetic over [Q], which is
      what the script computes for every list of at most [2^53] items
      ([cols_is_float_cols], [rows_is_float_rows]) and what the overview
      composer below uses.  Module [Binary64] runs the two lines on the
      machine's binary64 numbers, as a check of [Float64].
    - Item names are [string]s (the docstring of [get_items] promises
      [list[str]]), so [str(name)] is the identity.
    - A Pillow image is a display list: its mode, its size, its
      background and the drawing operations applied to it, in order.
      Where Pillow rejects arguments the script can pass on, the check
      is given beside the drawing: [Image_new_or_raise] and [check_box]
      (a negative size; a box whose second corner lies before the
      first).  [render_overview] and the abstract pipeline are stated
      for the sizes Pillow accepts.
    - [print], [os.makedirs] and [Image.save] are events appended to a
      trace, and so are the calls of the three abstract methods; the
      fields a subclass keeps on [self] are an explicit renderer state
      threaded through every call. *)

From Stdlib Require Import ZArith QArith Qround List String Ascii Bool Lia.
From Stdlib Require Import DecimalString.
From Stdlib Require PrimFloat Uint63 FloatOps SpecFloat.
Import ListNotations.
Local Open Scope Z_scope.

(** ** Configuration constants *)

Definition Color := list Z.

Definition OUTPUT_DIR : string := "build/previews".
Definition OVERVIEW_FILENAME : string := "overview.png".
Definition DEFAULT_SIZE : Z := 400.
Definition BG_COLOR : Color := [26; 26; 46].
Definition FG_COLOR : Color := [224; 224; 255].
Definition LABEL_COLOR : Color := [180; 180; 200].
Definition GRID_CELL_SIZE : Z := 120.
Definition GRID_PADDING : Z := 8.
Definition GRID_BG : Color := [20; 20; 35].

(** ** Grid geometry of [render_overview] *)

Module Grid.

(** [math.ceil(math.sqrt(q))] for a rational [q]: the least natural
    number whose square reaches [q].  A square is an integer, so it
    reaches [q] exactly when it reaches [Qceiling q]. *)
Definition ceil_sqrt (q : Q) : Z :=
  let k := Qceiling q in
  let r := Z.sqrt k in
  if r * r =? k then r else r + 1.

(** [cols = min(math.ceil(math.sqrt(n * 1.5)), 16)] *)
Definition cols (n : Z) : Z :=
  Z.min (ceil_sqrt (inject_Z n * (3 # 2))) 16.

(** [rows = math.ceil(n / cols)], the quotient taken exactly.  The
    script rounds the quotient to binary64 first: that changes nothing
    up to [2^53] items and can lose the fraction beyond. *)
Definition rows (n : Z) : Z :=
  Qceiling (inject_Z n / inject_Z (cols n)).

(** [cell = size + GRID_PADDING] *)
Definition cell (size : Z) : Z := size + GRID_PADDING.

(** [img_w = cols * cell + GRID_PADDING] *)
Definition img_w (n size : Z) : Z := cols n * cell size + GRID_PADDING.

(** [img_h = rows * cell + GRID_PADDING] *)
Definition img_h (n size : Z) : Z := rows n * cell size + GRID_PADDING.

(** [col = idx % cols] *)
Definition col (n idx : Z) : Z := idx mod cols n.

(** [row = idx // cols] *)
Definition row (n idx : Z) : Z := idx / cols n.

(** [x = GRID_PADDING + col * cell] *)
Definition cell_x (n size idx : Z) : Z := GRID_PADDING + col n idx * cell size.

(** [y = GRID_PADDING + row * cell] *)
Definition cell_y (n size idx : Z) : Z := GRID_PADDING + row n idx * cell size.

End Grid.

(** ** Python's [float], exactly

    Every finite binary64 number is a whole multiple of [2^-1074], the
    smallest positive one.  A non-negative binary64 number is kept here
    as that multiple, its count of [units].  An operation of Python
    returns the binary64 number nearest to the exact result, a tie going
    to the even significand: [round a b] does that for the fraction
    [a / b] of units and [round_sqrt w] for the square root of [w]
    units squared.  In both, [e] is the exponent that leaves a
    significand [m] of at most 53 bits (0 for a subnormal result), and
    the result is [m] or [m + 1] times [2^e].  Overflow, at [2^1024],
    is far from anything lines 187-188 reach: [len] returns less than
    [2^63]. *)
Module Float64.

Definition unit_exp : Z := 1074.
Definition units : Z := 2 ^ unit_exp.

Definition round (a b : Z) : Z :=
  let e := Z.max 0 (Z.log2 (a / b) - 52) in
  let d := b * 2 ^ e in
  let m := a / d in
  let m' := match 2 * (a mod d) ?= d with
            | Lt => m
            | Gt => m + 1
            | Eq => if Z.even m then m else m + 1
            end in
  m' * 2 ^ e.

Definition round_sqrt (w : Z) : Z :=
  let e := Z.max 0 (Z.log2 (Z.sqrt w) - 52) in
  let m := Z.sqrt (w / 4 ^ e) in
  let m' := match 4 * w ?= (2 * m + 1) * (2 * m + 1) * 4 ^ e with
            | Lt => m
            | Gt => m + 1
            | Eq => if Z.even m then m else m + 1
            end in
  m' * 2 ^ e.

(** [float(n)], which [n * 1.5] applies to [n] first. *)
Definition of_int (n : Z) : Z := round (n * units) 1.

(** [x * y] on two floats. *)
Definition mul (x y : Z) : Z := round (x * y) units.

(** [n / c] on two integers: Python rounds the exact quotient once. *)
Definition div_int (n c : Z) : Z := round (n * units) c.

(** [math.sqrt(x)] *)
Definition sqrt (x : Z) : Z := round_sqrt (x * units).

(** [math.ceil(x)] *)
Definition ceil (x : Z) : Z := - ((- x) / units).

(** The literal [1.5]. *)
Definition one_and_a_half : Z := 3 * 2 ^ (unit_exp - 1).

(** [cols = min(math.ceil(math.sqrt(n * 1.5)), 16)] *)
Definition cols (n : Z) : Z :=
  Z.min (ceil (sqrt (mul (of_int n) one_and_a_half))) 16.

(** [rows = math.ceil(n / cols)] *)
Definition rows (n : Z) : Z := ceil (div_int n (cols n)).

End Float64.

(** The same two lines on Python's [float], IEEE binary64.  [n * 1.5]
    converts [n] first; [n / cols] is the correctly rounded quotient of
    the two integers, which for operands below [2^53] is the quotient of
    their conversions. *)
Module Binary64.

Definition of_int (n : Z) : PrimFloat.float :=
  PrimFloat.of_uint63 (Uint63.of_Z n).

(** The literal [1.5]: three halves, which binary64 holds exactly. *)
Definition one_and_a_half : PrimFloat.float :=
  PrimFloat.div (of_int 3) (of_int 2).

(** [math.ceil(f)]; infinities and NaN raise. *)
Definition ceil (f : PrimFloat.float) : option Z :=
  match FloatOps.Prim2SF f with
  | SpecFloat.S754_zero _ => Some 0
  | SpecFloat.S754_finite sign m e =>
      let v := if sign then Z.neg m else Z.pos m in
      Some (if 0 <=? e then v * 2 ^ e else - ((- v) / 2 ^ (- e)))
  | SpecFloat.S754_infinity _ | SpecFloat.S754_nan => None
  end.

Definition cols (n : Z) : option Z :=
  option_map (fun k => Z.min k 16)
    (ceil (PrimFloat.sqrt (PrimFloat.mul (of_int n) one_and_a_half))).

Definition rows (n : Z) : option Z :=
  match cols n with
  | Some c => ceil (PrimFloat.div (of_int n) (of_int c))
  | None => None
  end.

Definition agrees (n : Z) : bool :=
  match cols n, rows n with
  | Some c, Some r => (c =? Grid.cols n) && (r =? Grid.rows n)
  | _, _ => false
  end.

Definition check_bound : nat := 2048.

(** A non-negative machine number counted in units of [2^-1074]. *)
Definition to_units (f : PrimFloat.float) : option Z :=
  match FloatOps.Prim2SF f with
  | SpecFloat.S754_zero _ => Some 0
  | SpecFloat.S754_finite false m e => Some (Z.pos m * 2 ^ (e + 1074))
  | _ => None
  end.

Definition is_just (o : option Z) (v : Z) : bool :=
  match o with Some x => x =? v | None => false end.

(** Whether the machine gets, step by step, the numbers of [Float64]
    for [n] items. *)
Definition same_as_float64 (n : Z) : bool :=
  let f := of_int n in
  let z := PrimFloat.mul f one_and_a_half in
  let y := PrimFloat.sqrt z in
  let c := Float64.cols n in
  let q := PrimFloat.div f (of_int c) in
  match to_units f, to_units z, to_units y, to_units q with
  | Some f', Some z', Some y', Some q' =>
      (f' =? Float64.of_int n)
      && (z' =? Float64.mul (Float64.of_int n) Float64.one_and_a_half)
      && (y' =? Float64.sqrt z')
      && (q' =? Float64.div_int n c)
      && is_just (cols n) c
      && is_just (rows n) (Float64.rows n)
  | _, _, _, _ => false
  end.

Definition samples : list Z :=
  [1; 2; 3; 7; 10; 150; 151; 170; 171; 4096; 2 ^ 53 - 1; 2 ^ 53; 2 ^ 53 + 1;
   2 ^ 62 + 2 ^ 9 + 1; 2 ^ 63 - 1].

End Binary64.

(** ** Python built-ins used by the script *)

Inductive exn : Type :=
  | ValueError (msg : string).

Inductive result (A : Type) : Type :=
  | Ok (a : A)
  | Raised (e : exn).
Arguments Ok {A} a.
Arguments Raised {A} e.

(** [range(start, stop, step)], as CPython computes it: a zero step is a
    [ValueError]; otherwise the length is [(hi - lo - 1) // step + 1]
    when [lo < hi] and 0 when not, the roles of the two ends swapped
    for a negative step. *)
Definition len_of_range (lo hi step : Z) : Z :=
  if lo <? hi then (hi - lo - 1) / step + 1 else 0.

Definition range_length (start stop step : Z) : Z :=
  if 0 <? step then len_of_range start stop step
  else len_of_range stop start (- step).

Definition py_range (start stop step : Z) : result (list Z) :=
  if step =? 0 then Raised (ValueError "range() arg 3 must not be zero")
  else Ok (map (fun i => start + Z.of_nat i * step)
               (seq 0 (Z.to_nat (range_length start stop step)))).

(** [s.replace(old, new)] for one-character [old] and [new]. *)
Fixpoint replace_char (old new : ascii) (s : string) : string :=
  match s with
  | EmptyString => EmptyString
  | String c r =>
      String (if Ascii.eqb c old then new else c) (replace_char old new r)
  end.

Fixpoint contains_char (c : ascii) (s : string) : bool :=
  match s with
  | EmptyString => false
  | String d r => Ascii.eqb d c || contains_char c r
  end.

Fixpoint last_char (s : string) : option ascii :=
  match s with
  | EmptyString => None
  | String c EmptyString => Some c
  | String _ r => last_char r
  end.

Definition startswith_sep (s : string) : bool :=
  match s with
  | String c _ => Ascii.eqb c "/"
  | EmptyString => false
  end.

Definition endswith_sep (s : string) : bool :=
  match last_char s with
  | Some c => Ascii.eqb c "/"
  | None => false
  end.

(** [os.path.join(a, b)] of [posixpath]: an absolute [b] replaces [a];
    no separator is added after an empty [a] or one that ends in [/]. *)
Definition os_path_join (a b : string) : string :=
  if startswith_sep b then b
  else if (String.eqb a EmptyString || endswith_sep a)%bool then a ++ b
  else a ++ "/" ++ b.

(** [str(n)] for an integer. *)
Definition str_of_Z (n : Z) : string :=
  DecimalString.NilZero.string_of_int (Z.to_int n).

(** ** Pillow images *)

Inductive Image : Type :=
  | mkImage (mode : string) (width height : Z) (ops : list DrawOp)
with DrawOp : Type :=
  | OpFill (color : Color)
  | OpLine (x0 y0 x1 y1 : Z) (fill : Color) (width : Z)
  | OpText (x y : Z) (text : string) (fill : Color)
  | OpRectangle (x0 y0 x1 y1 : Z) (outline : Color) (width : Z)
  | OpRoundedRectangle (x0 y0 x1 y1 radius : Z) (fill outline : Color) (width : Z)
  | OpPaste (src : Image) (x y : Z)
  | OpResample (src : Image).

Definition img_mode (im : Image) : string := let 'mkImage m _ _ _ := im in m.
Definition img_width (im : Image) : Z := let 'mkImage _ w _ _ := im in w.
Definition img_height (im : Image) : Z := let 'mkImage _ _ h _ := im in h.
Definition img_ops (im : Image) : list DrawOp := let 'mkImage _ _ _ o := im in o.

(** [Image.new(mode, (w, h), color)] *)
Definition Image_new (mode : string) (w h : Z) (color : Color) : Image :=
  mkImage mode w h [OpFill color].


(** The check [ImageDraw.rectangle] and [ImageDraw.rounded_rectangle]
    make on the box [[x0, y0, x1, y1]] before they draw. *)
Definition check_box (x0 y0 x1 y1 : Z) : result unit :=
  if x1 <? x0 then Raised (ValueError "x1 must be greater than or equal to x0")
  else if y1 <? y0
       then Raised (ValueError "y1 must be greater than or equal to y0")
       else Ok tt.

(** Sequencing of calls that may raise. *)
Definition and_then {A B} (r : result A) (f : A -> result B) : result B :=
  match r with
  | Ok a => f a
  | Raised e => Raised e
  end.

(** Every drawing call appends to the display list of the image the
    [ImageDraw.Draw] handle was made for. *)
Definition draw_op (im : Image) (op : DrawOp) : Image :=
  mkImage (img_mode im) (img_width im) (img_height im) (img_ops im ++ [op]).

Definition draw_ops (im : Image) (ops : list DrawOp) : Image :=
  mkImage (img_mode im) (img_width im) (img_height im) (img_ops im ++ ops).

(** [im.size != (w, h)] *)
Definition size_differs (im : Image) (w h : Z) : bool :=
  negb ((img_width im =? w) && (img_height im =? h)).

(** [im.resize((w, h), Image.LANCZOS)]: a new image. *)
Definition Image_resize (im : Image) (w h : Z) : Image :=
  mkImage (img_mode im) w h [OpResample im].

(** [im.paste(src, (x, y))] *)
Definition Image_paste (im src : Image) (x y : Z) : Image :=
  draw_op im (OpPaste src x y).

(** Pasting and labelling never change the canvas size, and only add
    to what is already on the canvas. *)
Definition extends (before after : Image) : Prop :=
  img_mode after = img_mode before /\
  img_width after = img_width before /\
  img_height after = img_height before /\
  exists added, img_ops after = img_ops before ++ added.

(** ** Overlay helpers *)

Definition OVERLAY_COLORS : list (string * Color) :=
  [ ("primary"%string,   [255; 80; 80; 100]);
    ("secondary"%string, [255; 220; 60; 100]);
    ("tertiary"%string,  [80; 220; 120; 100]);
    ("baseline"%string,  [80; 140; 255; 100]);
    ("accent"%string,    [180; 100; 255; 100]) ].

(** [OVERLAY_COLORS[key]] *)
Definition overlay_color (key : string) : option Color :=
  option_map snd (find (fun kv => String.eqb (fst kv) key) OVERLAY_COLORS).

(** [if label:] holds for a label that is neither [None] nor empty. *)
Definition label_given (label : option string) : option string :=
  match label with
  | Some EmptyString => None
  | other => other
  end.

(** What an optional label adds to a drawing: one text at [(x, y)], or
    nothing. *)
Definition label_ops (label : option string) (x y : Z) (color : Color)
    : list DrawOp :=
  match label_given label with
  | Some l => [OpText x y l color]
  | None => []
  end.

Module Overlay.

Definition draw_horizontal_line (draw : Image) (y width : Z) (color : Color)
    (label : option string) : Image :=
  let draw := draw_op draw (OpLine 0 y width y color 1) in
  match label_given label with
  | Some l => draw_op draw (OpText 4 (y - 14) l color)
  | None => draw
  end.

Definition draw_vertical_line (draw : Image) (x height : Z) (color : Color)
    (label : option string) : Image :=
  let draw := draw_op draw (OpLine x 0 x height color 1) in
  match label_given label with
  | Some l => draw_op draw (OpText (x + 4) 4 l color)
  | None => draw
  end.

(** The two loops of [draw_grid].  Each [range] is built when its loop
    is entered, so a zero [spacing] raises before anything is drawn. *)
Definition draw_grid (draw : Image) (width height spacing : Z)
    (color : Color) : result Image :=
  match py_range 0 width spacing with
  | Raised e => Raised e
  | Ok xs =>
      let draw :=
        fold_left (fun d x => draw_op d (OpLine x 0 x height color 1)) xs draw in
      match py_range 0 height spacing with
      | Raised e => Raised e
      | Ok ys =>
          Ok (fold_left (fun d y => draw_op d (OpLine 0 y width y color 1)) ys draw)
      end
  end.

Definition draw_grid_default_color : Color := [60; 60; 80; 80].

(** What [draw_bounding_box] leaves on the canvas when Pillow accepts
    the rectangle. *)
Definition bounding_box_drawn (draw : Image) (x y w h : Z) (color : Color)
    (label : option string) : Image :=
  let draw := draw_op draw (OpRectangle x y (x + w) (y + h) color 1) in
  match label_given label with
  | Some l => draw_op draw (OpText x (y - 14) l color)
  | None => draw
  end.

(** [draw.rectangle([x, y, x + w, y + h], ...)] raises for a negative
    [w] or [h], before the label is drawn. *)
Definition draw_bounding_box (draw : Image) (x y w h : Z) (color : Color)
    (label : option string) : result Image :=
  and_then (check_box x y (x + w) (y + h))
    (fun _ => Ok (bounding_box_drawn draw x y w h color label)).

Definition draw_label (draw : Image) (x y : Z) (text : string)
    (color : Color) : Image :=
  draw_op draw (OpText x y text color).

End Overlay.

(** ** Effects: renderer state and an event trace *)

Inductive Event : Type :=
  | EPrint (line : string)
  | EMakedirs (path : string)
  | ESave (path : string) (img : Image)
  | ECallLoad
  | ECallGetItems
  | ECallRender (item_name : string) (size : Z) (overlays : bool).

(** A computation reads and updates the renderer state and emits the
    events it caused, oldest first. *)
Definition M (RS A : Type) : Type := RS -> A * RS * list Event.

Definition ret {RS A} (a : A) : M RS A := fun s => (a, s, []).

Definition bind {RS A B} (m : M RS A) (f : A -> M RS B) : M RS B :=
  fun s =>
    let '(a, s1, t1) := m s in
    let '(b, s2, t2) := f a s1 in
    (b, s2, t1 ++ t2).

Definition emit {RS} (e : Event) : M RS unit := fun s => (tt, s, [e]).

(** What a call returned, the state it left, and what it emitted. *)
Definition value {RS A T} (r : A * RS * T) : A := fst (fst r).
Definition state {RS A T} (r : A * RS * T) : RS := snd (fst r).
Definition trace {RS A} (r : A * RS * list Event) : list Event := snd r.
Definition printed {RS A} (r : A * RS * list string) : list string := snd r.

Declare Scope py_scope.
Delimit Scope py_scope with py.
Notation "x <- m ;; k" := (bind m (fun x => k))
  (at level 61, m at next level, right associativity) : py_scope.
Notation "m ;; k" := (bind m (fun _ => k))
  (at level 61, right associativity) : py_scope.
Local Open Scope py_scope.

(** [for x in xs: body(x)] *)
Fixpoint for_each {RS A} (body : A -> M RS unit) (xs : list A) : M RS unit :=
  match xs with
  | [] => ret tt
  | x :: rest => body x ;; for_each body rest
  end.

(** The abstract methods a subclass supplies.  Each may update what the
    subclass keeps on [self] and may print; it hands back the lines it
    printed. *)
Definition Method (RS A : Type) : Type := RS -> A * RS * list string.

Definition pure {RS A} (a : A) : Method RS A := fun s => (a, s, []).

Class PreviewRenderer (RS : Type) : Type := {
  load_artifact : Method RS bool;
  render_item : string -> Z -> bool -> Method RS (option Image);
  get_items : Method RS (list string)
}.

Definition lift {RS A} (m : Method RS A) : M RS A :=
  fun s => let '(a, s1, out) := m s in (a, s1, map EPrint out).

(** ** The rendering pipeline *)

Section Pipeline.
Context {RS : Type} {R : PreviewRenderer RS}.
Variable output_dir : string.

Definition call_load_artifact : M RS bool :=
  emit ECallLoad ;; lift load_artifact.

Definition call_get_items : M RS (list string) :=
  emit ECallGetItems ;; lift get_items.

Definition call_render_item (name : string) (size : Z) (overlays : bool)
    : M RS (option Image) :=
  emit (ECallRender name size overlays) ;; lift (render_item name size overlays).

(** [str(name).replace("/", "_").replace("\\", "_")] *)
Definition safe_name (name : string) : string :=
  replace_char "\" "_" (replace_char "/" "_" name).

Definition item_path (name : string) : string :=
  os_path_join output_dir (safe_name name ++ ".png").

(** Body of the loop of [render_items]. *)
Definition render_one (size : Z) (overlays : bool) (name : string) : M RS unit :=
  img <- call_render_item name size overlays ;;
  match img with
  | None =>
      emit (EPrint ("  Warning: render_item returned None for '" ++ name
                    ++ "', skipping"))
  | Some img =>
      let path := item_path name in
      emit (ESave path img) ;;
      emit (EPrint ("  " ++ name ++ " -> " ++ path))
  end.

Definition render_items (item_names : list string) (size : Z)
    (overlays : bool) : M RS unit :=
  emit (EMakedirs output_dir) ;;
  for_each (render_one size overlays) item_names.

(** [if item_img.size != (size, size): item_img = item_img.resize(...)] *)
Definition fit_cell (item_img : Image) (size : Z) : Image :=
  if size_differs item_img size size
  then Image_resize item_img size size else item_img.

(** Body of the loop of [render_overview]: [n] is [len(items)], [idx]
    the position [enumerate] hands out. *)
Definition place_cell (n size idx : Z) (name : string) (overview : Image)
    : M RS Image :=
  let x := Grid.cell_x n size idx in
  let y := Grid.cell_y n size idx in
  item_img <- call_render_item name size false ;;
  match item_img with
  | None => ret overview
  | Some item_img =>
      let item_img := fit_cell item_img size in
      let overview := Image_paste overview item_img x y in
      ret (draw_op overview (OpText (x + 2) (y + 2) name LABEL_COLOR))
  end.

(** [for idx, name in enumerate(items): ...], entered at index [idx]. *)
Fixpoint place_cells (n size idx : Z) (items : list string) (overview : Image)
    : M RS Image :=
  match items with
  | [] => ret overview
  | name :: rest =>
      overview <- place_cell n size idx name overview ;;
      place_cells n size (idx + 1) rest overview
  end.

Definition overview_path : string := os_path_join output_dir OVERVIEW_FILENAME.

(** [render_overview] from [n = len(items)] on, for a non-empty list. *)
Definition compose_overview (items : list string) (size : Z) : M RS unit :=
  let n := Z.of_nat (List.length items) in
  let overview := Image_new "RGB" (Grid.img_w n size) (Grid.img_h n size) GRID_BG in
  overview <- place_cells n size 0 items overview ;;
  emit (EMakedirs output_dir) ;;
  emit (ESave overview_path overview) ;;
  emit (EPrint ("  Overview -> " ++ overview_path ++ " ("
                ++ str_of_Z (img_width overview) ++ "x"
                ++ str_of_Z (img_height overview) ++ "px)")).

Definition render_overview (size : Z) (overlays : bool) : M RS unit :=
  items <- call_get_items ;;
  match items with
  | [] => emit (EPrint "  No items to render in overview")
  | _ :: _ => compose_overview items size
  end.

(** [items if items else self.get_items()]: [None] and the empty list
    are both false. *)
Definition target_items (items : option (list string)) : M RS (list string) :=
  match items with
  | Some (x :: rest) => ret (x :: rest)
  | Some [] | None => call_get_items
  end.

(** The [if overview_only: ... else: ...] block of [run]. *)
Definition requested_stages (items : option (list string)) (size : Z)
    (overlays overview_only no_overview : bool) : M RS unit :=
  if overview_only then
    emit (EPrint "Rendering overview...") ;;
    render_overview GRID_CELL_SIZE overlays
  else
    targets <- target_items items ;;
    emit (EPrint ("Rendering " ++ str_of_Z (Z.of_nat (List.length targets))
                  ++ " item(s) at " ++ str_of_Z size ++ "px...")) ;;
    render_items targets size overlays ;;
    if negb no_overview then
      emit (EPrint "Rendering overview...") ;;
      render_overview GRID_CELL_SIZE overlays
    else ret tt.

Definition run (items : option (list string)) (size : Z)
    (overlays overview_only no_overview : bool) : M RS bool :=
  emit (EPrint "Loading artifact...") ;;
  loaded <- call_load_artifact ;;
  if negb loaded then
    emit (EPrint "Error: Failed to load artifact") ;;
    ret false
  else
    requested_stages items size overlays overview_only no_overview ;;
    emit (EPrint "Done.") ;;
    ret true.

End Pipeline.

(** ** The specification's reading of two steps

    These two definitions follow the words of the specification, not
    the script; the theorems compare them with [run] and [safe_name]. *)

Module SpecText.
Section Run.
Context {RS : Type} {R : PreviewRenderer RS}.
Variable output_dir : string.

(** "If overview-only requested: skip straight to Composing using all
    items (or caller subset)". *)
Definition overview_only_run (items : option (list string)) (overlays : bool)
    : M RS bool :=
  emit (EPrint "Loading artifact...") ;;
  loaded <- call_load_artifact ;;
  if negb loaded then
    emit (EPrint "Error: Failed to load artifact") ;;
    ret false
  else
    emit (EPrint "Rendering overview...") ;;
    match items with
    | Some (x :: rest) => compose_overview output_dir (x :: rest) GRID_CELL_SIZE
    | Some [] | None => render_overview output_dir GRID_CELL_SIZE overlays
    end ;;
    emit (EPrint "Done.") ;;
    ret true.

End Run.

(** "replace path-separator characters with an underscore" *)
Fixpoint sanitize (name : string) : string :=
  match name with
  | EmptyString => EmptyString
  | String c rest =>
      String (if (Ascii.eqb c "/" || Ascii.eqb c "\")%bool then "_"%char else c)
             (sanitize rest)
  end.

End SpecText.

(** ** [ExampleRenderer] *)

Module Example.

Definition EXAMPLE_ITEMS : list string :=
  ["button"; "header"; "card"; "input"; "modal";
   "sidebar"; "footer"; "nav"; "badge"; "tooltip"]%string.

Definition EXAMPLE_COLORS : list Color :=
  [ [180; 60; 60]; [60; 140; 180]; [60; 160; 80]; [180; 140; 60];
    [140; 80; 180]; [180; 100; 60]; [80; 80; 160]; [160; 60; 120];
    [60; 160; 160]; [140; 140; 60] ].

(** [xs.index(x) if x in xs else 0] *)
Fixpoint index_or_zero (x : string) (xs : list string) : Z :=
  match xs with
  | [] => 0
  | y :: rest =>
      if String.eqb y x then 0
      else if existsb (String.eqb x) rest then 1 + index_or_zero x rest
      else 0
  end.

Definition color_or (c : option Color) : Color :=
  match c with Some c => c | None => [] end.

(** The picture [render_item] returns when nothing raises. *)
Definition render (item_name : string) (size : Z) (overlays : bool) : Image :=
  let img := Image_new "RGB" size size BG_COLOR in
  let idx := index_or_zero item_name EXAMPLE_ITEMS in
  let color :=
    nth (Z.to_nat (idx mod Z.of_nat (List.length EXAMPLE_COLORS)))
        EXAMPLE_COLORS [] in
  let margin := size / 6 in
  let img :=
    draw_op img (OpRoundedRectangle margin margin (size - margin)
                   (size - margin) (size / 12) color FG_COLOR 2) in
  let img := draw_op img (OpText (margin + 8) (margin + 8) item_name FG_COLOR) in
  if overlays then
    let center := size / 2 in
    let img :=
      Overlay.draw_horizontal_line img center size
        (color_or (overlay_color "baseline")) (Some "center"%string) in
    let img :=
      Overlay.draw_vertical_line img center size
        (color_or (overlay_color "tertiary")) (Some "center"%string) in
    Overlay.bounding_box_drawn img margin margin (size - 2 * margin)
      (size - 2 * margin) (color_or (overlay_color "primary"))
      (Some "bounds"%string)
  else img.


(** The renderer, for the sizes [render_item] accepts: with a negative
    [size] the script leaves [render_item], and the run, with the
    [ValueError] of [render_checked], an outcome a computation in [M]
    does not have. *)
#[export] Instance ExampleRenderer : PreviewRenderer unit := {
  load_artifact := fun s =>
    (true, s, ["  (Example mode — no real artifact to load)"%string]);
  render_item name size overlays := pure (Some (render name size overlays));
  get_items := pure EXAMPLE_ITEMS
}.

End Example.

(** ** A renderer for exercising the failure paths

    It fails to load when told so, lists [tr_items], and has no picture
    for the names in [tr_missing].  Its state counts the render calls. *)

Module Table.

Record Behaviour : Type := {
  tr_loads : bool;
  tr_items : list string;
  tr_missing : list string
}.

Definition blank (size : Z) : Image := Image_new "RGB" size size BG_COLOR.

Definition TableRenderer (t : Behaviour) : PreviewRenderer nat := {|
  load_artifact := pure (tr_loads t);
  render_item name size overlays := fun calls =>
    (if existsb (String.eqb name) (tr_missing t) then None
     else Some (blank size), S calls, []);
  get_items := pure (tr_items t)
|}.

Definition flaky : Behaviour :=
  {| tr_loads := true;
     tr_items := ["a"; "b/c"; "d"]%string;
     tr_missing := ["b/c"]%string |}.

Definition unloadable : Behaviour :=
  {| tr_loads := false; tr_items := ["a"]%string; tr_missing := [] |}.

Definition empty : Behaviour :=
  {| tr_loads := true; tr_items := []; tr_missing := [] |}.

End Table.

(** ** The command line entry point

    [parse_args] is argparse's work and is not embedded; [main] is
    modelled from the parsed namespace on.  [--items] has [nargs="+"],
    so [args_items] is [None] or a non-empty list, and [--size]
    defaults to [DEFAULT_SIZE]. *)

Record Args : Type := {
  args_items : option (list string);
  args_size : Z;
  args_overview_only : bool;
  args_no_overview : bool;
  args_no_overlays : bool
}.

Definition default_args : Args :=
  {| args_items := None; args_size := DEFAULT_SIZE;
     args_overview_only := false; args_no_overview := false;
     args_no_overlays := false |}.


(** ** Reading a trace *)

(** The events of a trace that [f] selects, in order. *)
Fixpoint pick {A} (f : Event -> option A) (t : list Event) : list A :=
  match t with
  | [] => []
  | e :: rest =>
      match f e with
      | Some a => a :: pick f rest
      | None => pick f rest
      end
  end.

(** A selector that does not look at printed lines. *)
Definition silent {A} (f : Event -> option A) : Prop :=
  forall line, f (EPrint line) = None.

Definition as_render_call (e : Event) : option (string * Z * bool) :=
  match e with
  | ECallRender name size overlays => Some (name, size, overlays)
  | _ => None
  end.

Definition as_save (e : Event) : option (string * Image) :=
  match e with ESave path img => Some (path, img) | _ => None end.

Definition as_load (e : Event) : option unit :=
  match e with ECallLoad => Some tt | _ => None end.

Definition as_listing (e : Event) : option unit :=
  match e with ECallGetItems => Some tt | _ => None end.

Definition as_makedirs (e : Event) : option string :=
  match e with EMakedirs path => Some path | _ => None end.

(** The calls of [render_item], the files written, the calls of
    [load_artifact] and of [get_items], the directories asked for. *)
Definition render_calls (t : list Event) : list (string * Z * bool) :=
  pick as_render_call t.
Definition saves (t : list Event) : list (string * Image) := pick as_save t.
Definition saved_paths (t : list Event) : list string := map fst (saves t).
Definition loads (t : list Event) : list unit := pick as_load t.
Definition listings (t : list Event) : list unit := pick as_listing t.
Definition made_dirs (t : list Event) : list string := pick as_makedirs t.

(** What the file at [path] holds after the writes [ws], made in
    order: the picture of the last write to [path]. *)
Fixpoint file_after (ws : list (string * Image)) (path : string)
    : option Image :=
  match ws with
  | [] => None
  | (p, img) :: rest =>
      match file_after rest path with
      | Some later => Some later
      | None => if String.eqb p path then Some img else None
      end
  end.

Definition is_some {A} (o : option A) : bool :=
  match o with Some _ => true | None => false end.

(** What one cell adds to the overview, given what [render_item]
    returned for it; and the same for a run of cells from [idx] on,
    when [f] tells what [render_item] returns for each name. *)
Definition cell_ops (n size idx : Z) (name : string) (r : option Image)
    : list DrawOp :=
  match r with
  | None => []
  | Some img =>
      [OpPaste (fit_cell img size) (Grid.cell_x n size idx)
         (Grid.cell_y n size idx);
       OpText (Grid.cell_x n size idx + 2) (Grid.cell_y n size idx + 2)
         name LABEL_COLOR]
  end.

Fixpoint cells_ops (f : string -> option Image) (n size idx : Z)
    (items : list string) : list DrawOp :=
  match items with
  | [] => []
  | name :: rest =>
      cell_ops n size idx name (f name) ++ cells_ops f n size (idx + 1) rest
  end.

(** ** Built-ins and images on small inputs *)

Example range_0_10_3 : py_range 0 10 3 = Ok [0; 3; 6; 9]. Proof. reflexivity. Qed.
Example range_0_9_3 : py_range 0 9 3 = Ok [0; 3; 6]. Proof. reflexivity. Qed.
Example range_0_5_9 : py_range 0 5 9 = Ok [0]. Proof. reflexivity. Qed.
Example range_0_0_4 : py_range 0 0 4 = Ok []. Proof. reflexivity. Qed.
Example range_neg_step : py_range 0 10 (-3) = Ok []. Proof. reflexivity. Qed.
Example range_neg_both : py_range 0 (-10) (-3) = Ok [0; -3; -6; -9].
Proof. reflexivity. Qed.

Example join_default :
  os_path_join OUTPUT_DIR OVERVIEW_FILENAME = "build/previews/overview.png"%string.
Proof. reflexivity. Qed.
Example join_trailing :
  os_path_join "out/" "a.png" = "out/a.png"%string.
Proof. reflexivity. Qed.

Example str_of_Z_520 : str_of_Z 520 = "520"%string. Proof. reflexivity. Qed.
Example str_of_Z_neg : str_of_Z (-7) = "-7"%string. Proof. reflexivity. Qed.
Example str_of_Z_zero : str_of_Z 0 = "0"%string. Proof. reflexivity. Qed.

Example grid_400_100 :
  Overlay.draw_grid (Image_new "RGBA" 4 2 []) 4 2 2 [1] =
  Ok (mkImage "RGBA" 4 2
        [OpFill []; OpLine 0 0 0 2 [1] 1; OpLine 2 0 2 2 [1] 1;
         OpLine 0 0 4 0 [1] 1]).
Proof. reflexivity. Qed.

Example grid_zero_spacing :
  Overlay.draw_grid (Image_new "RGBA" 4 2 []) 4 2 0 [1] =
  Raised (ValueError "range() arg 3 must not be zero").
Proof. reflexivity. Qed.

(** ** Arithmetic of the grid *)

Section GridFacts.
Import Grid.

Example cols_10 : Grid.cols 10 = 4. Proof. reflexivity. Qed.
Example rows_10 : Grid.rows 10 = 3. Proof. reflexivity. Qed.
Example cols_1 : Grid.cols 1 = 2. Proof. reflexivity. Qed.
Example rows_1 : Grid.rows 1 = 1. Proof. reflexivity. Qed.
Example single_item_cell : Grid.col 1 0 = 0 /\ Grid.row 1 0 = 0.
Proof. split; reflexivity. Qed.
Example cols_150 : Grid.cols 150 = 15. Proof. reflexivity. Qed.
Example cols_151 : Grid.cols 151 = 16. Proof. reflexivity. Qed.
Example cols_big : Grid.cols 100000 = 16. Proof. reflexivity. Qed.

Lemma Qceiling_frac (a : Z) (b : positive) :
  Qceiling (a # b) = - ((- a) / Z.pos b).
Proof. reflexivity. Qed.

Lemma neg_div_ceil (a b : Z) :
  0 < b -> (- ((- a) / b) - 1) * b < a <= - ((- a) / b) * b.
Proof.
  intros Hb.
  pose proof (Z.div_mod (- a) b ltac:(lia)) as Hdm.
  pose proof (Z.mod_pos_bound (- a) b Hb) as Hm.
  nia.
Qed.

(** The number under the square root, rounded up: [ceil(n * 1.5)]. *)
Lemma Qceiling_three_halves (n : Z) :
  Qceiling (inject_Z n * (3 # 2)) = - ((- (n * 3)) / 2).
Proof. unfold inject_Z, Qmult; simpl Qnum; simpl Qden. apply Qceiling_frac. Qed.

Lemma ceil_sqrt_spec (q : Q) :
  0 <= Qceiling q ->
  let c := ceil_sqrt q in
  0 <= c /\ Qceiling q <= c * c /\ (c = 0 \/ (c - 1) * (c - 1) < Qceiling q).
Proof.
  intros Hk. unfold ceil_sqrt.
  set (k := Qceiling q) in *.
  pose proof (Z.sqrt_spec k Hk) as Hs. cbv zeta in Hs.
  pose proof (Z.sqrt_nonneg k) as Hn.
  set (r := Z.sqrt k) in *. unfold Z.succ in Hs.
  destruct (Z.eqb_spec (r * r) k) as [E | E]; cbv zeta.
  - split; [lia|]. split; [lia|].
    destruct (Z.eq_dec r 0); [left; assumption | right; nia].
  - split; [lia|]. split; [nia|]. right.
    replace (r + 1 - 1) with r by lia. lia.
Qed.

(** [ceil_sqrt q] is the only natural number [c] with
    [(c-1)^2 < q <= c^2], that is [c - 1 < sqrt q <= c]. *)
Lemma ceil_sqrt_unique (q : Q) (c : Z) :
  0 < Qceiling q -> 0 <= c ->
  (c - 1) * (c - 1) < Qceiling q <= c * c ->
  ceil_sqrt q = c.
Proof.
  intros Hk Hc Hb.
  destruct (ceil_sqrt_spec q ltac:(lia)) as (H0 & H1 & H2).
  set (d := ceil_sqrt q) in *.
  destruct H2 as [H2 | H2]; [nia|].
  destruct (Z.lt_trichotomy c d) as [L | [L | L]]; [nia | lia | nia].
Qed.

Lemma ceil_sqrt_three_halves (n : Z) :
  1 <= n ->
  let c := ceil_sqrt (inject_Z n * (3 # 2)) in
  1 <= c /\ 2 * ((c - 1) * (c - 1)) < 3 * n <= 2 * (c * c).
Proof.
  intros Hn c.
  pose proof (Qceiling_three_halves n) as Hq.
  pose proof (neg_div_ceil (n * 3) 2 ltac:(lia)) as Hc.
  assert (Hk : 0 < Qceiling (inject_Z n * (3 # 2))) by lia.
  destruct (ceil_sqrt_spec (inject_Z n * (3 # 2)) ltac:(lia)) as (H0 & H1 & H2).
  fold c in H0, H1, H2.
  assert (c <> 0) by nia.
  destruct H2 as [H2 | H2]; [contradiction|].
  split; [lia|]. rewrite Hq in *. lia.
Qed.

Lemma cols_bounds (n : Z) : 1 <= n -> 1 <= cols n <= 16.
Proof.
  intros Hn. unfold cols.
  pose proof (ceil_sqrt_three_halves n Hn) as [H _]. lia.
Qed.

(** Past 150 items the cap is what decides the column count. *)
Lemma cols_capped (n : Z) : 151 <= n -> cols n = 16.
Proof.
  intros Hn. unfold cols.
  pose proof (ceil_sqrt_three_halves n ltac:(lia)) as [H1 [H2 H3]].
  apply Z.min_r. nia.
Qed.

Lemma rows_ceil_div (n : Z) : 1 <= n -> rows n = - ((- n) / cols n).
Proof.
  intros Hn. unfold rows.
  pose proof (cols_bounds n Hn) as Hc.
  destruct (cols n) as [| p | p] eqn:E; try lia.
  unfold Qdiv, Qinv, inject_Z. simpl Qnum.
  unfold Qmult. simpl Qnum. simpl Qden.
  rewrite Qceiling_frac. rewrite Z.mul_1_r. reflexivity.
Qed.

Lemma rows_spec (n : Z) :
  1 <= n -> (rows n - 1) * cols n < n <= rows n * cols n.
Proof.
  intros Hn. rewrite rows_ceil_div by assumption.
  apply neg_div_ceil. pose proof (cols_bounds n Hn). lia.
Qed.

(** On every list length from 1 to [Binary64.check_bound] the binary64
    run of the two lines gives the columns and rows of the exact one. *)
Lemma binary64_agrees (n : Z) :
  1 <= n <= Z.of_nat Binary64.check_bound ->
  Binary64.cols n = Some (cols n) /\ Binary64.rows n = Some (rows n).
Proof.
  intros Hn.
  assert (Hall : forallb Binary64.agrees
                   (map Z.of_nat (seq 1 Binary64.check_bound)) = true)
    by (vm_compute; reflexivity).
  rewrite forallb_forall in Hall.
  assert (Hin : In n (map Z.of_nat (seq 1 Binary64.check_bound))).
  { apply in_map_iff. exists (Z.to_nat n). split; [lia|].
    apply in_seq. lia. }
  specialize (Hall n Hin). unfold Binary64.agrees in Hall.
  destruct (Binary64.cols n) as [c |]; [|discriminate].
  destruct (Binary64.rows n) as [r |]; [|discriminate].
  apply andb_prop in Hall. destruct Hall as [Hc Hr].
  apply Z.eqb_eq in Hc, Hr. subst. split; reflexivity.
Qed.

Lemma rows_pos (n : Z) : 1 <= n -> 1 <= rows n.
Proof.
  intros Hn. pose proof (rows_spec n Hn). pose proof (cols_bounds n Hn). nia.
Qed.

End GridFacts.

(** ** Properties of the grid geometry *)

(** ** The grid as the script computes it *)

Section Rounding.
Import Float64.

Lemma pow2_pos (e : Z) : 0 <= e -> 0 < 2 ^ e.
Proof. intros. apply Z.pow_pos_nonneg; lia. Qed.

Lemma no_float_between (m e p i : Z) :
  0 <= e -> 0 <= i -> 0 < p <= 2 ^ 53 -> 0 <= m ->
  (0 < e -> 2 ^ 52 <= m) ->
  m * 2 ^ e < p * 2 ^ i -> p * 2 ^ i < (m + 1) * 2 ^ e -> False.
Proof.
  intros He Hi Hp Hm Hnorm Hlo Hhi.
  destruct (Z_le_gt_dec e i) as [Hei | Hei].
  - replace i with (e + (i - e)) in Hlo, Hhi by lia.
    rewrite Z.pow_add_r in Hlo, Hhi by lia.
    pose proof (pow2_pos e He) as Pe.
    pose proof (pow2_pos (i - e) ltac:(lia)) as Pk.
    set (x := 2 ^ e) in *. set (y := 2 ^ (i - e)) in *.
    assert (m < p * y) by nia. assert (p * y < m + 1) by nia. lia.
  - replace e with (i + (e - i)) in Hlo, Hhi by lia.
    rewrite Z.pow_add_r in Hlo, Hhi by lia.
    pose proof (pow2_pos i Hi) as Pi.
    assert (Pk : 2 <= 2 ^ (e - i)).
    { change 2 with (2 ^ 1) at 1. apply Z.pow_le_mono_r; lia. }
    specialize (Hnorm ltac:(lia)).
    set (x := 2 ^ i) in *. set (y := 2 ^ (e - i)) in *.
    assert (m * y < p) by nia.
    assert (2 ^ 53 = 2 * 2 ^ 52) by reflexivity. nia.
Qed.

Lemma round_spec (a b : Z) :
  0 <= a -> 0 < b ->
  exists m e : Z,
    0 <= e /\ 0 <= m < 2 ^ 53 /\ (0 < e -> 2 ^ 52 <= m) /\
    m * (b * 2 ^ e) <= a < (m + 1) * (b * 2 ^ e) /\
    ((round a b = m * 2 ^ e /\ 2 * (a - m * (b * 2 ^ e)) <= b * 2 ^ e) \/
     (round a b = (m + 1) * 2 ^ e /\ b * 2 ^ e <= 2 * (a - m * (b * 2 ^ e)))).
Proof.
  intros Ha Hb. unfold round.
  set (e := Z.max 0 (Z.log2 (a / b) - 52)).
  assert (He : 0 <= e) by lia.
  pose proof (pow2_pos e He) as Pe.
  set (d := b * 2 ^ e). assert (Hd : 0 < d) by (unfold d; nia).
  pose proof (Z.div_mod a d ltac:(lia)) as Hdm.
  pose proof (Z.mod_pos_bound a d Hd) as Hr.
  set (m := a / d) in *. set (r := a mod d) in *.
  assert (Hm : 0 <= m) by (apply Z.div_pos; lia).
  assert (Em : m = a / b / 2 ^ e)
    by (unfold m, d; rewrite Z.div_div by lia; reflexivity).
  assert (Hq0 : 0 <= a / b) by (apply Z.div_pos; lia).
  exists m, e. split; [exact He|]. split; [split; [exact Hm|]|split; [|split]].
  - destruct (Z_le_gt_dec (a / b) 0) as [L | G].
    + rewrite Em. replace (a / b) with 0 by lia.
      rewrite Z.div_0_l by lia. reflexivity.
    + destruct (Z.log2_spec (a / b) ltac:(lia)) as [_ Hhi].
      assert (Hhi' : a / b < 2 ^ 53 * 2 ^ e).
      { rewrite <- Z.pow_add_r by lia.
        eapply Z.lt_le_trans; [exact Hhi|]. apply Z.pow_le_mono_r; lia. }
      rewrite Em. apply Z.div_lt_upper_bound; lia.
  - intros Hpos.
    assert (Hlog : Z.log2 (a / b) = e + 52) by lia.
    assert (Hq : 0 < a / b).
    { destruct (Z_le_gt_dec (a / b) 0) as [L | G]; [|lia].
      rewrite (Z.log2_nonpos _ L) in Hlog. lia. }
    destruct (Z.log2_spec (a / b) Hq) as [Hlo _].
    rewrite Hlog in Hlo. rewrite Z.pow_add_r in Hlo by lia.
    rewrite Em. apply Z.div_le_lower_bound; lia.
  - fold d. nia.
  - fold d. destruct (Z.compare_spec (2 * r) d) as [E | L | G].
    + destruct (Z.even m); [left | right]; split; try reflexivity; lia.
    + left. split; [reflexivity | lia].
    + right. split; [reflexivity | lia].
Qed.



(** [round a b] has at most 53 significant bits, and no number with at
    most 53 significant bits is nearer to [a / b]. *)
Lemma round_nearest (a b p i : Z) :
  0 <= a -> 0 < b -> 0 < p <= 2 ^ 53 -> 0 <= i ->
  (exists p' i', 0 <= p' <= 2 ^ 53 /\ 0 <= i' /\ round a b = p' * 2 ^ i') /\
  Z.abs (round a b * b - a) <= Z.abs (p * 2 ^ i * b - a).
Proof.
  intros Ha Hb Hp Hi.
  destruct (round_spec a b Ha Hb) as (m & e & He & [Hm Hm53] & Hn & [Hlo Hhi] & Hr).
  pose proof (pow2_pos e He) as Pe. pose proof (pow2_pos i Hi) as Pi.
  split.
  - destruct Hr as [[-> _] | [-> _]]; [exists m, e | exists (m + 1), e];
      repeat split; lia.
  - assert (Hside : p * 2 ^ i <= m * 2 ^ e \/ (m + 1) * 2 ^ e <= p * 2 ^ i).
    { destruct (Z_le_gt_dec (p * 2 ^ i) (m * 2 ^ e)) as [L | G];
        [left; exact L|].
      destruct (Z_le_gt_dec ((m + 1) * 2 ^ e) (p * 2 ^ i)) as [L' | G'];
        [right; exact L'|].
      exfalso. apply (no_float_between m e p i He Hi Hp Hm Hn); lia. }
    set (x := 2 ^ e) in *. set (v := p * 2 ^ i) in *.
    assert (Hvb : v * b <= m * (b * x) \/ (m + 1) * (b * x) <= v * b)
      by (destruct Hside; [left | right]; nia).
    assert (E1 : m * x * b = m * (b * x)) by ring.
    assert (E2 : (m + 1) * x * b = m * (b * x) + b * x) by ring.
    assert (E3 : (m + 1) * (b * x) = m * (b * x) + b * x) by ring.
    destruct Hr as [[-> Hhalf] | [-> Hhalf]]; rewrite ?E1, ?E2;
      rewrite E3 in *; lia.
Qed.


















End Rounding.



(** On the sample item counts, among them the largest [len] can
    return and the ones around [2^53], the machine's binary64 numbers
    are those of [Float64] at every step of lines 187-188. *)
Lemma float64_matches_machine :
  forallb Binary64.same_as_float64 Binary64.samples = true.
Proof. vm_compute. reflexivity. Qed.




Lemma placement_injective (n i j : Z) :
  1 <= n ->
  Grid.col n i = Grid.col n j -> Grid.row n i = Grid.row n j -> i = j.
Proof.
  unfold Grid.col, Grid.row. intros Hn Hc Hr.
  pose proof (cols_bounds n Hn) as Hb.
  rewrite (Z.div_mod i (Grid.cols n)) by lia.
  rewrite (Z.div_mod j (Grid.cols n)) by lia.
  congruence.
Qed.

Lemma placement_in_grid (n idx : Z) :
  1 <= n -> 0 <= idx < n ->
  0 <= Grid.col n idx < Grid.cols n /\ 0 <= Grid.row n idx < Grid.rows n.
Proof.
  unfold Grid.col, Grid.row. intros Hn Hi.
  pose proof (cols_bounds n Hn) as Hb.
  pose proof (rows_spec n Hn) as Hr.
  split; [apply Z.mod_pos_bound; lia|].
  split; [apply Z.div_pos; lia|].
  apply Z.div_lt_upper_bound; nia.
Qed.

Lemma origin_injective (n size i j : Z) :
  1 <= n -> Grid.cell size <> 0 ->
  Grid.cell_x n size i = Grid.cell_x n size j ->
  Grid.cell_y n size i = Grid.cell_y n size j -> i = j.
Proof.
  unfold Grid.cell_x, Grid.cell_y. intros Hn Hc Hx Hy.
  apply (placement_injective n i j Hn).
  - apply (Z.mul_reg_r _ _ (Grid.cell size)); [assumption | lia].
  - apply (Z.mul_reg_r _ _ (Grid.cell size)); [assumption | lia].
Qed.

(** ** File names *)

Lemma replace_twice_is_sanitize (name : string) :
  replace_char "\" "_" (replace_char "/" "_" name) = SpecText.sanitize name.
Proof.
  induction name as [| c rest IH]; [reflexivity|].
  cbn [replace_char SpecText.sanitize]. rewrite IH.
  destruct (Ascii.eqb c "/") eqn:E1; cbn [orb]; [reflexivity|].
  reflexivity.
Qed.

Lemma sanitize_no_slash (name : string) :
  contains_char "/" (SpecText.sanitize name) = false.
Proof.
  induction name as [| c rest IH]; [reflexivity|].
  cbn [SpecText.sanitize contains_char]. rewrite IH, orb_false_r.
  destruct (Ascii.eqb c "/") eqn:E1; cbn [orb]; [reflexivity|].
  destruct (Ascii.eqb c "\") eqn:E2; [reflexivity | exact E1].
Qed.

Lemma sanitize_no_backslash (name : string) :
  contains_char "\" (SpecText.sanitize name) = false.
Proof.
  induction name as [| c rest IH]; [reflexivity|].
  cbn [SpecText.sanitize contains_char]. rewrite IH, orb_false_r.
  destruct (Ascii.eqb c "\") eqn:E2; [rewrite orb_true_r; reflexivity|].
  rewrite orb_false_r.
  destruct (Ascii.eqb c "/") eqn:E1; [reflexivity | exact E2].
Qed.

Lemma sanitize_length (name : string) :
  String.length (SpecText.sanitize name) = String.length name.
Proof.
  induction name as [| c rest IH]; [reflexivity|].
  cbn [SpecText.sanitize String.length]. rewrite IH. reflexivity.
Qed.

Lemma startswith_sep_no_slash (a b : string) :
  contains_char "/" a = false -> startswith_sep b = false ->
  startswith_sep (a ++ b) = false.
Proof.
  destruct a as [| c rest]; [intros _ H; exact H|].
  cbn [contains_char append startswith_sep]. intros H _.
  apply orb_false_elim in H. apply H.
Qed.

Lemma os_path_join_plain (a b : string) :
  a <> EmptyString -> endswith_sep a = false -> startswith_sep b = false ->
  os_path_join a b = (a ++ "/" ++ b)%string.
Proof.
  intros Ha He Hb. unfold os_path_join. rewrite Hb, He.
  destruct (String.eqb_spec a EmptyString); [contradiction | reflexivity].
Qed.

(** ** Reasoning about the pipeline *)

Section PipelineFacts.
Context {RS : Type} {R : PreviewRenderer RS}.
Variable output_dir : string.

Local Open Scope py_scope.

Lemma result_eta {A} (r : A * RS * list Event) :
  r = (value r, state r, trace r).
Proof. destruct r as [[a s] t]. reflexivity. Qed.

Lemma bind_eq {A B} (m : M RS A) (f : A -> M RS B) (s : RS) :
  bind m f s =
  (value (f (value (m s)) (state (m s))),
   state (f (value (m s)) (state (m s))),
   trace (m s) ++ trace (f (value (m s)) (state (m s)))).
Proof.
  unfold bind. destruct (m s) as [[a s1] t1]. cbn.
  destruct (f a s1) as [[b s2] t2]. reflexivity.
Qed.

Lemma call_render_item_run (name : string) (size : Z) (overlays : bool)
    (s s1 : RS) (r : option Image) (out : list string) :
  render_item name size overlays s = (r, s1, out) ->
  call_render_item name size overlays s =
  (r, s1, ECallRender name size overlays :: map EPrint out).
Proof.
  intros H. unfold call_render_item, bind, emit, lift. rewrite H. reflexivity.
Qed.

Lemma call_get_items_run (s s1 : RS) (items : list string) (out : list string) :
  get_items s = (items, s1, out) ->
  call_get_items s = (items, s1, ECallGetItems :: map EPrint out).
Proof.
  intros H. unfold call_get_items, bind, emit, lift. rewrite H. reflexivity.
Qed.

Lemma call_load_artifact_run (s s1 : RS) (ok : bool) (out : list string) :
  load_artifact s = (ok, s1, out) ->
  call_load_artifact s = (ok, s1, ECallLoad :: map EPrint out).
Proof.
  intros H. unfold call_load_artifact, bind, emit, lift. rewrite H. reflexivity.
Qed.

(** *** The loop of [render_items] *)

Lemma for_each_app {A} (body : A -> M RS unit) (xs ys : list A) (s : RS) :
  for_each body (xs ++ ys) s = (for_each body xs ;; for_each body ys) s.
Proof.
  revert s. induction xs as [| x xs IH]; intros s.
  - cbn [for_each app]. rewrite bind_eq. cbn. apply result_eta.
  - cbn [for_each app]. rewrite !bind_eq. rewrite IH. rewrite !bind_eq.
    cbn [value state trace fst snd]. rewrite app_assoc. reflexivity.
Qed.

Lemma render_one_absent (size : Z) (overlays : bool) (name : string)
    (s s1 : RS) (out : list string) :
  render_item name size overlays s = (None, s1, out) ->
  render_one output_dir size overlays name s =
  (tt, s1,
   ECallRender name size overlays :: map EPrint out
     ++ [EPrint ("  Warning: render_item returned None for '" ++ name
                 ++ "', skipping")]).
Proof.
  intros H. unfold render_one, bind at 1.
  rewrite (call_render_item_run _ _ _ _ _ _ _ H). reflexivity.
Qed.

Lemma render_one_present (size : Z) (overlays : bool) (name : string)
    (s s1 : RS) (img : Image) (out : list string) :
  render_item name size overlays s = (Some img, s1, out) ->
  render_one output_dir size overlays name s =
  (tt, s1,
   ECallRender name size overlays :: map EPrint out
     ++ [ESave (item_path output_dir name) img;
         EPrint ("  " ++ name ++ " -> " ++ item_path output_dir name)]).
Proof.
  intros H. unfold render_one, bind at 1.
  rewrite (call_render_item_run _ _ _ _ _ _ _ H). reflexivity.
Qed.

(** Every name handed to the loop reaches [render_item]. *)
Lemma for_each_render_one_calls (size : Z) (overlays : bool)
    (names : list string) (s : RS) (y : string) :
  In y names ->
  In (ECallRender y size overlays)
     (trace (for_each (render_one output_dir size overlays) names s)).
Proof.
  revert s. induction names as [| x names IH]; intros s Hy; [contradiction|].
  cbn [for_each]. rewrite bind_eq. unfold trace at 1. cbn [snd].
  apply in_or_app. destruct Hy as [-> | Hy].
  - left. unfold render_one. rewrite bind_eq. unfold trace at 1. cbn [snd].
    apply in_or_app. left.
    destruct (render_item y size overlays s) as [[r s1] out] eqn:E.
    rewrite (call_render_item_run _ _ _ _ _ _ _ E). left. reflexivity.
  - right. apply IH. assumption.
Qed.

Lemma render_items_app (size : Z) (overlays : bool) (xs ys : list string)
    (s : RS) :
  render_items output_dir (xs ++ ys) size overlays s =
  (render_items output_dir xs size overlays ;;
   for_each (render_one output_dir size overlays) ys) s.
Proof.
  unfold render_items. rewrite !bind_eq. rewrite for_each_app.
  rewrite !bind_eq. cbn [emit value state trace fst snd].
  rewrite app_assoc. reflexivity.
Qed.

(** *** The loop of [render_overview] *)

Lemma place_cell_absent (n size idx : Z) (name : string) (overview : Image)
    (s s1 : RS) (out : list string) :
  render_item name size false s = (None, s1, out) ->
  place_cell n size idx name overview s =
  (overview, s1, ECallRender name size false :: map EPrint out).
Proof.
  intros H. unfold place_cell, bind at 1.
  rewrite (call_render_item_run _ _ _ _ _ _ _ H).
  cbn. rewrite app_nil_r. reflexivity.
Qed.

Lemma place_cell_present (n size idx : Z) (name : string) (overview : Image)
    (s s1 : RS) (img : Image) (out : list string) :
  render_item name size false s = (Some img, s1, out) ->
  place_cell n size idx name overview s =
  (draw_op
     (Image_paste overview (fit_cell img size)
        (Grid.cell_x n size idx) (Grid.cell_y n size idx))
     (OpText (Grid.cell_x n size idx + 2) (Grid.cell_y n size idx + 2)
        name LABEL_COLOR),
   s1, ECallRender name size false :: map EPrint out).
Proof.
  intros H. unfold place_cell, bind at 1.
  rewrite (call_render_item_run _ _ _ _ _ _ _ H).
  cbn. rewrite app_nil_r. reflexivity.
Qed.

Lemma extends_refl (im : Image) : extends im im.
Proof. repeat split. exists []. symmetry. apply app_nil_r. Qed.

Lemma extends_trans (a b c : Image) : extends a b -> extends b c -> extends a c.
Proof.
  intros (M1 & W1 & H1 & [x X]) (M2 & W2 & H2 & [y Y]).
  repeat split; try congruence.
  exists (x ++ y). rewrite Y, X. symmetry. apply app_assoc.
Qed.

Lemma extends_draw_op (im : Image) (op : DrawOp) : extends im (draw_op im op).
Proof. repeat split. exists [op]. reflexivity. Qed.

Lemma place_cell_extends (n size idx : Z) (name : string) (overview : Image)
    (s : RS) :
  extends overview (value (place_cell n size idx name overview s)).
Proof.
  destruct (render_item name size false s) as [[[img |] s1] out] eqn:E.
  - rewrite (place_cell_present _ _ _ _ _ _ _ _ _ E). cbn [value fst].
    eapply extends_trans; apply extends_draw_op.
  - rewrite (place_cell_absent _ _ _ _ _ _ _ _ E). apply extends_refl.
Qed.

Lemma place_cells_extends (n size : Z) (items : list string) :
  forall (idx : Z) (overview : Image) (s : RS),
  extends overview (value (place_cells n size idx items overview s)).
Proof.
  induction items as [| name rest IH]; intros idx overview s.
  - apply extends_refl.
  - cbn [place_cells]. rewrite bind_eq. cbn [value fst].
    eapply extends_trans; [apply place_cell_extends | apply IH].
Qed.

Lemma place_cells_app (n size : Z) (xs ys : list string) :
  forall (idx : Z) (overview : Image) (s : RS),
  place_cells n size idx (xs ++ ys) overview s =
  (ov <- place_cells n size idx xs overview ;;
   place_cells n size (idx + Z.of_nat (List.length xs)) ys ov) s.
Proof.
  induction xs as [| x xs IH]; intros idx overview s.
  - cbn [place_cells app List.length]. rewrite bind_eq. cbn.
    rewrite Z.add_0_r. apply result_eta.
  - cbn [place_cells app]. rewrite !bind_eq. rewrite IH. rewrite !bind_eq.
    cbn [value state trace fst snd]. rewrite app_assoc.
    replace (idx + 1 + Z.of_nat (List.length xs))
      with (idx + Z.of_nat (List.length (x :: xs)))
      by (cbn [List.length]; lia).
    reflexivity.
Qed.

(** Every item of the list reaches [render_item], overlays off. *)
Lemma place_cells_calls (n size : Z) (items : list string) (y : string) :
  In y items ->
  forall (idx : Z) (overview : Image) (s : RS),
  In (ECallRender y size false)
     (trace (place_cells n size idx items overview s)).
Proof.
  induction items as [| x items IH]; intros Hy idx overview s; [contradiction|].
  cbn [place_cells]. rewrite bind_eq. unfold trace at 1. cbn [snd].
  apply in_or_app. destruct Hy as [-> | Hy].
  - left. destruct (render_item y size false s) as [[[img |] s1] out] eqn:E.
    + rewrite (place_cell_present _ _ _ _ _ _ _ _ _ E). left. reflexivity.
    + rewrite (place_cell_absent _ _ _ _ _ _ _ _ E). left. reflexivity.
  - right. apply IH. assumption.
Qed.

Lemma compose_overview_eq (items : list string) (size : Z) (s : RS) :
  let n := Z.of_nat (List.length items) in
  let r := place_cells n size 0 items
             (Image_new "RGB" (Grid.img_w n size) (Grid.img_h n size) GRID_BG) s in
  compose_overview output_dir items size s =
  (tt, state r,
   trace r ++
   [EMakedirs output_dir;
    ESave (overview_path output_dir) (value r);
    EPrint ("  Overview -> " ++ overview_path output_dir ++ " ("
            ++ str_of_Z (img_width (value r)) ++ "x"
            ++ str_of_Z (img_height (value r)) ++ "px)")]).
Proof.
  intros n r. unfold compose_overview. fold n. rewrite bind_eq. fold r.
  reflexivity.
Qed.

Lemma render_overview_nonempty (size : Z) (overlays : bool) (s s1 : RS)
    (x : string) (rest : list string) (out : list string) :
  get_items s = (x :: rest, s1, out) ->
  render_overview output_dir size overlays s =
  (tt, state (compose_overview output_dir (x :: rest) size s1),
   ECallGetItems :: map EPrint out
     ++ trace (compose_overview output_dir (x :: rest) size s1)).
Proof.
  intros H. unfold render_overview. rewrite bind_eq.
  rewrite (call_get_items_run _ _ _ _ H). cbn [value state trace fst snd].
  destruct (compose_overview output_dir (x :: rest) size s1) as [[[] s2] t2].
  reflexivity.
Qed.

Lemma render_overview_empty (size : Z) (overlays : bool) (s s1 : RS)
    (out : list string) :
  get_items s = ([], s1, out) ->
  render_overview output_dir size overlays s =
  (tt, s1,
   ECallGetItems :: map EPrint out ++ [EPrint "  No items to render in overview"]).
Proof.
  intros H. unfold render_overview. rewrite bind_eq.
  rewrite (call_get_items_run _ _ _ _ H). reflexivity.
Qed.

(** *** The overview canvas and its cells *)

(** C2. When [get_items] hands back a non-empty list of [n] names,
    [render_overview] saves, as its last step but one, a canvas that
    started as the [GRID_BG] background and measures exactly
    [cols*(size+padding)+padding] by [rows*(size+padding)+padding];
    for 10 items of cell size 120 that is 520 by 392. *)
Theorem C2_overview_canvas (size : Z) (overlays : bool) (s s1 : RS)
    (items : list string) (out : list string) :
  get_items s = (items, s1, out) ->
  items <> [] ->
  let n := Z.of_nat (List.length items) in
  exists (img : Image) (before : list Event) (last : Event),
    trace (render_overview output_dir size overlays s)
      = before ++ [ESave (overview_path output_dir) img; last] /\
    extends (Image_new "RGB" (Grid.img_w n size) (Grid.img_h n size) GRID_BG)
      img /\
    img_width img = Grid.cols n * (size + GRID_PADDING) + GRID_PADDING /\
    img_height img = Grid.rows n * (size + GRID_PADDING) + GRID_PADDING /\
    (n = 10 -> size = 120 -> img_width img = 520 /\ img_height img = 392).
Proof.
  intros Hget Hne n.
  destruct items as [| x rest]; [contradiction|].
  rewrite (render_overview_nonempty _ overlays _ _ _ _ _ Hget).
  rewrite compose_overview_eq. fold n. cbv zeta. cbn [trace state snd fst].
  set (canvas := Image_new "RGB" (Grid.img_w n size) (Grid.img_h n size) GRID_BG).
  set (r := place_cells n size 0 (x :: rest) canvas s1).
  pose proof (place_cells_extends n size (x :: rest) 0 canvas s1) as Hext.
  fold r in Hext.
  destruct Hext as (Hm & Hw & Hh & Hops).
  eexists (value r), _, _. split.
  - change (ECallGetItems :: map EPrint out ++ trace r ++ ?l)
      with ((ECallGetItems :: map EPrint out) ++ trace r ++ l).
    rewrite !app_assoc.
    change [EMakedirs output_dir; ESave ?p ?i; ?e]
      with ([EMakedirs output_dir] ++ [ESave p i; e]).
    rewrite app_assoc. reflexivity.
  - split; [repeat split; assumption|].
    assert (Wd : img_width (value r)
                 = Grid.cols n * (size + GRID_PADDING) + GRID_PADDING)
      by (rewrite Hw; reflexivity).
    assert (Hg : img_height (value r)
                 = Grid.rows n * (size + GRID_PADDING) + GRID_PADDING)
      by (rewrite Hh; reflexivity).
    split; [exact Wd|]. split; [exact Hg|].
    intros Hn Hs. rewrite Wd, Hg, Hn, Hs. split; reflexivity.
Qed.

(** C3. In [render_overview] the item at position [k] of the list
    that [get_items] returned, [n] items long, belongs to column
    [k mod cols] and row [k div cols] of the grid for [n] items, a cell
    inside the grid: when [render_item] returns a picture for it, the
    overview that is saved holds, after everything the items before it
    put on the canvas, that picture pasted at
    [(padding + col*(size+padding), padding + row*(size+padding))] and
    then its label, and after them what the later items add.  Two
    positions of the list with the same column and row are the same
    position, and so are two positions with the same origin unless the
    cell pitch [size + padding] is zero. *)
Theorem C3_placement (size : Z) (overlays : bool) (s s0 : RS)
    (out0 : list string) (pre post : list string) (name : string) :
  get_items s = (pre ++ name :: post, s0, out0) ->
  let n := Z.of_nat (List.length (pre ++ name :: post)) in
  let k := Z.of_nat (List.length pre) in
  let col := k mod Grid.cols n in
  let row := k / Grid.cols n in
  let x := GRID_PADDING + col * (size + GRID_PADDING) in
  let y := GRID_PADDING + row * (size + GRID_PADDING) in
  let canvas :=
    Image_new "RGB" (Grid.img_w n size) (Grid.img_h n size) GRID_BG in
  (0 <= col < Grid.cols n /\ 0 <= row < Grid.rows n) /\
  (forall (canvas1 img : Image) (s1 s2 : RS) (t1 : list Event)
          (out : list string),
     place_cells n size 0 pre canvas s0 = (canvas1, s1, t1) ->
     render_item name size false s1 = (Some img, s2, out) ->
     exists (final : Image) (before : list Event) (last : Event)
            (later : list DrawOp),
       trace (render_overview output_dir size overlays s)
         = before ++ [ESave (overview_path output_dir) final; last] /\
       img_ops final
         = img_ops canvas1
           ++ [OpPaste (fit_cell img size) x y;
               OpText (x + 2) (y + 2) name LABEL_COLOR]
           ++ later) /\
  (forall i j, 0 <= i < n -> 0 <= j < n ->
     i mod Grid.cols n = j mod Grid.cols n ->
     i / Grid.cols n = j / Grid.cols n -> i = j) /\
  (size + GRID_PADDING <> 0 ->
   forall i j, 0 <= i < n -> 0 <= j < n ->
     Grid.cell_x n size i = Grid.cell_x n size j ->
     Grid.cell_y n size i = Grid.cell_y n size j -> i = j).
Proof.
  intros Hget n k col row x y canvas.
  assert (Hn : 1 <= n).
  { unfold n. rewrite length_app. cbn [List.length]. lia. }
  assert (Hk : 0 <= k < n).
  { unfold n, k. rewrite length_app. cbn [List.length]. lia. }
  split; [exact (placement_in_grid n k Hn Hk)|].
  split; [|split].
  - intros canvas1 img s1 s2 t1 out Hpre Hitem.
    assert (Hne : exists first rest, pre ++ name :: post = first :: rest)
      by (destruct pre; eexists _, _; reflexivity).
    destruct Hne as (first & rest & Eitems).
    assert (Hget' : get_items s = (first :: rest, s0, out0))
      by (rewrite <- Eitems; exact Hget).
    rewrite (render_overview_nonempty _ overlays _ _ _ _ _ Hget').
    rewrite compose_overview_eq. cbv zeta. cbn [trace state snd fst].
    rewrite <- Eitems. fold n. fold canvas.
    set (r := place_cells n size 0 (pre ++ name :: post) canvas s0).
    assert (Hr : exists later,
               img_ops (value r)
               = img_ops canvas1
                 ++ [OpPaste (fit_cell img size) x y;
                     OpText (x + 2) (y + 2) name LABEL_COLOR]
                 ++ later).
    { unfold r. rewrite place_cells_app, bind_eq, Hpre.
      cbn [value state trace fst snd place_cells]. rewrite bind_eq.
      rewrite (place_cell_present _ _ _ _ _ _ _ _ _ Hitem).
      cbn [value state trace fst snd].
      match goal with
      | |- context [place_cells n size ?i post ?c s2] =>
          destruct (place_cells_extends n size post i c s2)
            as (_ & _ & _ & [later Hlater])
      end.
      exists later. rewrite Hlater. cbn [img_ops draw_op Image_paste].
      rewrite Z.add_0_l. fold k.
      rewrite <- !app_assoc. reflexivity. }
    destruct Hr as [later Hlater].
    exists (value r), (ECallGetItems :: map EPrint out0 ++ trace r
                         ++ [EMakedirs output_dir]).
    eexists. exists later.
    split; [|exact Hlater].
    cbn [app]. f_equal. rewrite <- !app_assoc. reflexivity.
  - intros i j _ _. apply (placement_injective n i j Hn).
  - intros Hpitch i j _ _. apply origin_injective; assumption.
Qed.

(** C4. An item for which [render_item] returns [None] is skipped and
    the items after it are still processed: in [render_items] the skip
    prints a warning and saves nothing; in the overview loop it leaves
    the canvas as it was; in both, the loop goes on with the rest of the
    list and calls [render_item] for each of its names. *)
Theorem C4_absent_result_is_skipped (size : Z) (overlays : bool)
    (pre post : list string) (x : string) (s : RS) :
  (forall (s1 s2 : RS) (t1 : list Event) (out : list string),
     render_items output_dir pre size overlays s = (tt, s1, t1) ->
     render_item x size overlays s1 = (None, s2, out) ->
     exists (s3 : RS) (t3 : list Event),
       for_each (render_one output_dir size overlays) post s2 = (tt, s3, t3) /\
       render_items output_dir (pre ++ x :: post) size overlays s =
       (tt, s3,
        t1 ++ ECallRender x size overlays :: map EPrint out
           ++ EPrint ("  Warning: render_item returned None for '" ++ x
                      ++ "', skipping") :: t3) /\
       forall y, In y post -> In (ECallRender y size overlays) t3) /\
  (forall (n idx : Z) (canvas canvas1 : Image) (s1 s2 : RS)
          (t1 : list Event) (out : list string),
     place_cells n size idx pre canvas s = (canvas1, s1, t1) ->
     render_item x size false s1 = (None, s2, out) ->
     exists (canvas3 : Image) (s3 : RS) (t3 : list Event),
       place_cells n size (idx + Z.of_nat (List.length pre) + 1) post canvas1 s2
         = (canvas3, s3, t3) /\
       place_cells n size idx (pre ++ x :: post) canvas s =
       (canvas3, s3, t1 ++ ECallRender x size false :: map EPrint out ++ t3) /\
       forall y, In y post -> In (ECallRender y size false) t3).
Proof.
  split.
  - intros s1 s2 t1 out Hpre Hx.
    destruct (for_each (render_one output_dir size overlays) post s2)
      as [[[] s3] t3] eqn:Epost.
    exists s3, t3. split; [reflexivity|]. split.
    + rewrite render_items_app. rewrite bind_eq. rewrite Hpre.
      cbn [value state trace fst snd for_each]. rewrite bind_eq.
      rewrite (render_one_absent _ _ _ _ _ _ Hx).
      cbn [value state trace fst snd]. rewrite Epost.
      cbn [value state trace fst snd app].
      rewrite <- app_assoc. reflexivity.
    + intros y Hy.
      pose proof (for_each_render_one_calls size overlays post s2 y Hy) as H.
      rewrite Epost in H. exact H.
  - intros n idx canvas canvas1 s1 s2 t1 out Hpre Hx.
    destruct (place_cells n size (idx + Z.of_nat (List.length pre) + 1) post
                canvas1 s2) as [[canvas3 s3] t3] eqn:Epost.
    exists canvas3, s3, t3. split; [reflexivity|]. split.
    + rewrite place_cells_app. rewrite bind_eq. rewrite Hpre.
      cbn [value state trace fst snd place_cells]. rewrite bind_eq.
      rewrite (place_cell_absent _ _ _ _ _ _ _ _ Hx).
      cbn [value state trace fst snd]. rewrite Epost. reflexivity.
    + intros y Hy.
      pose proof (place_cells_calls n size post y Hy
                    (idx + Z.of_nat (List.length pre) + 1) canvas1 s2) as H.
      rewrite Epost in H. exact H.
Qed.

(** *** The orchestrator *)

Lemma run_load_failed (items : option (list string)) (size : Z)
    (overlays overview_only no_overview : bool) (s s1 : RS) (out : list string) :
  load_artifact s = (false, s1, out) ->
  run output_dir items size overlays overview_only no_overview s =
  (false, s1,
   EPrint "Loading artifact..." :: ECallLoad :: map EPrint out
     ++ [EPrint "Error: Failed to load artifact"]).
Proof.
  intros H. unfold run. rewrite bind_eq. cbn [emit value state trace fst snd].
  rewrite bind_eq. rewrite (call_load_artifact_run _ _ _ _ H). reflexivity.
Qed.

Lemma run_loaded (items : option (list string)) (size : Z)
    (overlays overview_only no_overview : bool) (s s1 : RS) (out : list string) :
  load_artifact s = (true, s1, out) ->
  let r := requested_stages output_dir items size overlays overview_only
             no_overview s1 in
  run output_dir items size overlays overview_only no_overview s =
  (true, state r,
   EPrint "Loading artifact..." :: ECallLoad :: map EPrint out
     ++ trace r ++ [EPrint "Done."]).
Proof.
  intros H r. unfold run. rewrite bind_eq. cbn [emit value state trace fst snd].
  rewrite bind_eq. rewrite (call_load_artifact_run _ _ _ _ H).
  cbn [value state trace fst snd negb]. rewrite bind_eq. fold r.
  rewrite bind_eq. reflexivity.
Qed.

Lemma run_value (items : option (list string)) (size : Z)
    (overlays overview_only no_overview : bool) (s : RS) :
  value (run output_dir items size overlays overview_only no_overview s)
  = value (load_artifact s).
Proof.
  destruct (load_artifact s) as [[[|] s1] out] eqn:E.
  - rewrite (run_loaded _ _ _ _ _ _ _ _ E). reflexivity.
  - rewrite (run_load_failed _ _ _ _ _ _ _ _ E). reflexivity.
Qed.

Lemma stages_overview_only (items : option (list string)) (size : Z)
    (overlays no_overview : bool) (s : RS) :
  let r := render_overview output_dir GRID_CELL_SIZE overlays s in
  requested_stages output_dir items size overlays true no_overview s =
  (tt, state r, EPrint "Rendering overview..." :: trace r).
Proof.
  intros r. unfold requested_stages. rewrite bind_eq.
  cbn [emit value state trace fst snd app]. fold r.
  destruct r as [[[] s1] t1]. reflexivity.
Qed.

(** *** The orchestrator and the single-item pipeline, end to end *)

(** C6, as the script has it.  An overview-only run does not look at
    the caller's item subset (nor at [size] or [no_overview]): after a
    successful load it prints one line and calls [render_overview], which
    takes its list from [get_items] and composes every item of it. *)
Theorem C6_overview_only_uses_all_items (items items' : option (list string))
    (size size' : Z) (overlays no_overview no_overview' : bool) (s : RS) :
  run output_dir items size overlays true no_overview s
    = run output_dir items' size' overlays true no_overview' s /\
  (forall (s1 s2 : RS) (out out2 : list string) (x : string)
          (rest : list string),
     load_artifact s = (true, s1, out) ->
     get_items s1 = (x :: rest, s2, out2) ->
     let c := compose_overview output_dir (x :: rest) GRID_CELL_SIZE s2 in
     run output_dir items size overlays true no_overview s =
     (true, state c,
      EPrint "Loading artifact..." :: ECallLoad :: map EPrint out
        ++ (EPrint "Rendering overview..." :: ECallGetItems :: map EPrint out2
              ++ trace c)
        ++ [EPrint "Done."]) /\
     forall y, In y (x :: rest) -> In (ECallRender y GRID_CELL_SIZE false) (trace c)).
Proof.
  split.
  - destruct (load_artifact s) as [[[|] s1] out] eqn:E.
    + rewrite !(run_loaded _ _ _ _ _ _ _ _ E). cbv zeta.
      rewrite !stages_overview_only. reflexivity.
    + rewrite !(run_load_failed _ _ _ _ _ _ _ _ E). reflexivity.
  - intros s1 s2 out out2 x rest Hload Hget c. split.
    + rewrite (run_loaded _ _ _ _ _ _ _ _ Hload). cbv zeta.
      rewrite stages_overview_only. cbv zeta.
      rewrite (render_overview_nonempty _ _ _ _ _ _ _ Hget). reflexivity.
    + intros y Hy. unfold c. rewrite compose_overview_eq. cbv zeta.
      unfold trace at 1. cbn [snd]. apply in_or_app. left.
      apply place_cells_calls. exact Hy.
Qed.

(** C7. When [get_items] returns the empty list, [render_overview]
    prints its notice, saves nothing and returns; an overview-only run
    and a full run over such a renderer both end with [True]. *)
Theorem C7_empty_overview (size : Z) (overlays : bool) (s s1 : RS)
    (out : list string) :
  get_items s = ([], s1, out) ->
  render_overview output_dir size overlays s =
    (tt, s1,
     ECallGetItems :: map EPrint out
       ++ [EPrint "  No items to render in overview"]) /\
  (forall (items : option (list string)) (run_size : Z) (no_overview : bool)
          (s0 : RS) (out0 : list string),
     load_artifact s0 = (true, s, out0) ->
     run output_dir items run_size overlays true no_overview s0 =
     (true, s1,
      EPrint "Loading artifact..." :: ECallLoad :: map EPrint out0
        ++ (EPrint "Rendering overview..." :: ECallGetItems :: map EPrint out
              ++ [EPrint "  No items to render in overview"])
        ++ [EPrint "Done."])) /\
  (forall (items : option (list string)) (run_size : Z)
          (overview_only no_overview : bool) (s0 : RS) (out0 : list string),
     load_artifact s0 = (true, s, out0) ->
     value (run output_dir items run_size overlays overview_only no_overview s0)
       = true).
Proof.
  intros Hget. split; [|split].
  - apply render_overview_empty. exact Hget.
  - intros items run_size no_overview s0 out0 Hload.
    rewrite (run_loaded _ _ _ _ _ _ _ _ Hload). cbv zeta.
    rewrite stages_overview_only. cbv zeta.
    rewrite (render_overview_empty _ _ _ _ _ Hget). reflexivity.
  - intros items run_size overview_only no_overview s0 out0 Hload.
    rewrite run_value, Hload. reflexivity.
Qed.

(** C8. [run] returns what [load_artifact] returned.  After a failed
    load the run consists of the two messages around the load call, so
    nothing is listed, rendered or saved; after a successful one the
    requested stages run to their end, [Done.] is printed and the result
    is [True], whatever [render_item] returned along the way. *)
Theorem C8_run_outcome (items : option (list string)) (size : Z)
    (overlays overview_only no_overview : bool) (s : RS) :
  let r := run output_dir items size overlays overview_only no_overview s in
  let l := load_artifact s in
  value r = value l /\
  (value l = false ->
   r = (false, state l,
        EPrint "Loading artifact..." :: ECallLoad :: map EPrint (printed l)
          ++ [EPrint "Error: Failed to load artifact"])) /\
  (value l = true ->
   let g := requested_stages output_dir items size overlays overview_only
              no_overview (state l) in
   r = (true, state g,
        EPrint "Loading artifact..." :: ECallLoad :: map EPrint (printed l)
          ++ trace g ++ [EPrint "Done."])).
Proof.
  intros r l. subst r l.
  split; [apply run_value|].
  destruct (load_artifact s) as [[ok s1] out] eqn:E.
  cbn [value state printed fst snd]. split; intros ->.
  - apply run_load_failed. exact E.
  - apply (run_loaded _ _ _ _ _ _ _ _ E).
Qed.

(** C9. [render_items] creates the output directory before anything
    else, and an item that [render_item] turns into a picture is saved
    as [os.path.join(output_dir, safe_name + ".png")], where [safe_name]
    is the item name with every [/] and every [\] turned into [_]; for
    an output directory that is neither empty nor ends in [/] that path
    reads [output_dir/safe_name.png]. *)
Theorem C9_item_saved_under_safe_name (size : Z) (overlays : bool)
    (pre post : list string) (x : string) (s s1 s2 : RS) (t1 : list Event)
    (img : Image) (out : list string) :
  render_items output_dir pre size overlays s = (tt, s1, t1) ->
  render_item x size overlays s1 = (Some img, s2, out) ->
  let safe := safe_name x in
  let path := os_path_join output_dir (safe ++ ".png") in
  (exists before after : list Event,
     trace (render_items output_dir (pre ++ x :: post) size overlays s)
       = EMakedirs output_dir :: before ++ ESave path img :: after) /\
  safe = SpecText.sanitize x /\
  contains_char "/" safe = false /\
  contains_char "\" safe = false /\
  (output_dir <> EmptyString -> endswith_sep output_dir = false ->
   path = (output_dir ++ "/" ++ safe ++ ".png")%string).
Proof.
  intros Hpre Hx safe path.
  assert (Hs : safe = SpecText.sanitize x) by apply replace_twice_is_sanitize.
  split; [|split; [exact Hs|split; [|split]]].
  - rewrite render_items_app. rewrite bind_eq. rewrite Hpre.
    cbn [value state trace fst snd for_each]. rewrite bind_eq.
    rewrite (render_one_present _ _ _ _ _ _ _ Hx).
    cbn [value state trace fst snd].
    unfold render_items in Hpre. rewrite bind_eq in Hpre.
    cbn [emit value state trace fst snd app] in Hpre.
    injection Hpre as _ _ Ht1. rewrite <- Ht1.
    exists (trace (for_each (render_one output_dir size overlays) pre s)
              ++ ECallRender x size overlays :: map EPrint out),
           (EPrint ("  " ++ x ++ " -> " ++ item_path output_dir x)
              :: trace (for_each (render_one output_dir size overlays) post s2)).
    change path with (item_path output_dir x).
    cbn [app]. f_equal. rewrite <- !app_assoc. reflexivity.
  - rewrite Hs. apply sanitize_no_slash.
  - rewrite Hs. apply sanitize_no_backslash.
  - intros Hne Hend. apply os_path_join_plain; try assumption.
    apply startswith_sep_no_slash; [|reflexivity].
    rewrite Hs. apply sanitize_no_slash.
Qed.

(** C10. [run] cannot tell an empty item list from no item list: the
    two calls are the same computation, and in a full run the single-item
    pipeline is handed the list of [get_items] and calls [render_item]
    for every name on it. *)
Theorem C10_empty_subset_is_no_subset (size : Z)
    (overlays overview_only no_overview : bool) (s : RS) :
  run output_dir (Some []) size overlays overview_only no_overview s
    = run output_dir None size overlays overview_only no_overview s /\
  (forall (s1 s2 : RS) (out out2 : list string) (all : list string),
     load_artifact s = (true, s1, out) ->
     get_items s1 = (all, s2, out2) ->
     forall y, In y all ->
     In (ECallRender y size overlays)
        (trace (run output_dir (Some []) size overlays false no_overview s))).
Proof.
  split; [reflexivity|].
  intros s1 s2 out out2 all Hload Hget y Hy.
  rewrite (run_loaded _ _ _ _ _ _ _ _ Hload). cbv zeta.
  unfold trace at 1. cbn [snd]. right. right.
  apply in_or_app. right. apply in_or_app. left.
  unfold requested_stages, target_items. rewrite bind_eq.
  rewrite (call_get_items_run _ _ _ _ Hget). cbn [value state trace fst snd].
  apply in_or_app. right. rewrite bind_eq. cbn [emit value state trace fst snd].
  apply in_or_app. right. rewrite bind_eq. unfold trace at 1. cbn [snd].
  apply in_or_app. left. unfold render_items. rewrite bind_eq.
  unfold trace at 1. cbn [snd]. apply in_or_app. right.
  apply for_each_render_one_calls. exact Hy.
Qed.

End PipelineFacts.

(** ** The overlay helpers *)

Section OverlayFacts.

Lemma draw_ops_nil (im : Image) : draw_ops im [] = im.
Proof. destruct im. unfold draw_ops. cbn. rewrite app_nil_r. reflexivity. Qed.

Lemma draw_ops_app (im : Image) (xs ys : list DrawOp) :
  draw_ops (draw_ops im xs) ys = draw_ops im (xs ++ ys).
Proof. unfold draw_ops. cbn. rewrite app_assoc. reflexivity. Qed.

Lemma fold_left_draw_op {A} (f : A -> DrawOp) (xs : list A) (im : Image) :
  fold_left (fun d x => draw_op d (f x)) xs im = draw_ops im (map f xs).
Proof.
  revert im. induction xs as [| x xs IH]; intros im.
  - symmetry. apply draw_ops_nil.
  - cbn [fold_left map]. rewrite IH.
    change (draw_op im (f x)) with (draw_ops im [f x]).
    apply draw_ops_app.
Qed.

Lemma py_range_zero_step (start stop : Z) :
  py_range start stop 0 = Raised (ValueError "range() arg 3 must not be zero").
Proof. reflexivity. Qed.

Lemma py_range_ok (start stop step : Z) :
  step <> 0 ->
  py_range start stop step =
  Ok (map (fun i => start + Z.of_nat i * step)
          (seq 0 (Z.to_nat (range_length start stop step)))).
Proof.
  intros H. unfold py_range.
  destruct (Z.eqb_spec step 0); [contradiction | reflexivity].
Qed.

Lemma range_length_backwards (stop step : Z) :
  step < 0 -> 0 <= stop -> range_length 0 stop step = 0.
Proof.
  intros Hs Hw. unfold range_length, len_of_range.
  destruct (Z.ltb_spec 0 step); [lia|].
  destruct (Z.ltb_spec stop 0); [lia | reflexivity].
Qed.

Lemma range_length_wide_step (stop step : Z) :
  0 < step -> stop <= step -> 0 <= range_length 0 stop step <= 1.
Proof.
  intros Hs Hw. unfold range_length, len_of_range.
  destruct (Z.ltb_spec 0 step); [|lia].
  destruct (Z.ltb_spec 0 stop); [|lia].
  rewrite Z.div_small by lia. lia.
Qed.

Lemma draw_grid_ok (draw : Image) (width height spacing : Z) (color : Color)
    (xs ys : list Z) :
  py_range 0 width spacing = Ok xs ->
  py_range 0 height spacing = Ok ys ->
  Overlay.draw_grid draw width height spacing color =
  Ok (draw_ops draw (map (fun x => OpLine x 0 x height color 1) xs
                     ++ map (fun y => OpLine 0 y width y color 1) ys)).
Proof.
  intros Hx Hy. unfold Overlay.draw_grid. rewrite Hx, Hy.
  rewrite !fold_left_draw_op, draw_ops_app. reflexivity.
Qed.

Lemma draw_op_label (im : Image) (op : DrawOp) (label : option string)
    (x y : Z) (color : Color) :
  match label_given label with
  | Some l => draw_op (draw_op im op) (OpText x y l color)
  | None => draw_op im op
  end = draw_ops im (op :: label_ops label x y color).
Proof.
  unfold label_ops. destruct (label_given label) as [l|].
  - change (draw_op (draw_op im op) (OpText x y l color))
      with (draw_ops (draw_ops im [op]) [OpText x y l color]).
    apply draw_ops_app.
  - reflexivity.
Qed.

Lemma draw_bounding_box_narrow (draw : Image) (x y w h : Z) (color : Color)
    (label : option string) :
  w < 0 ->
  Overlay.draw_bounding_box draw x y w h color label =
  Raised (ValueError "x1 must be greater than or equal to x0").
Proof.
  intros Hw. unfold Overlay.draw_bounding_box, check_box.
  destruct (Z.ltb_spec (x + w) x); [reflexivity | lia].
Qed.

Lemma draw_bounding_box_flat (draw : Image) (x y w h : Z) (color : Color)
    (label : option string) :
  0 <= w -> h < 0 ->
  Overlay.draw_bounding_box draw x y w h color label =
  Raised (ValueError "y1 must be greater than or equal to y0").
Proof.
  intros Hw Hh. unfold Overlay.draw_bounding_box, check_box.
  destruct (Z.ltb_spec (x + w) x); [lia|].
  destruct (Z.ltb_spec (y + h) y); [reflexivity | lia].
Qed.

Lemma draw_bounding_box_ok (draw : Image) (x y w h : Z) (color : Color)
    (label : option string) :
  0 <= w -> 0 <= h ->
  Overlay.draw_bounding_box draw x y w h color label =
  Ok (draw_ops draw (OpRectangle x y (x + w) (y + h) color 1
                     :: label_ops label x (y - 14) color)).
Proof.
  intros Hw Hh. unfold Overlay.draw_bounding_box, check_box.
  destruct (Z.ltb_spec (x + w) x); [lia|].
  destruct (Z.ltb_spec (y + h) y); [lia|].
  cbn [and_then]. f_equal. apply draw_op_label.
Qed.

(** C5, as the script has it.  Three of the five overlay helpers cannot
    fail: [draw_horizontal_line], [draw_vertical_line] and [draw_label]
    add their line, and their label if one is given, to the canvas for
    every geometry.  The other two each have one way to fail.
    [draw_bounding_box] raises [ValueError] for a negative [w] or [h],
    before it draws anything, and otherwise adds the rectangle and the
    label.  [draw_grid] raises [ValueError] for a zero [spacing], before
    anything is drawn.  Any other [spacing] draws the vertical lines at
    the positions of [range(0, width, spacing)], then the horizontal
    ones at those of [range(0, height, spacing)]; a negative [spacing]
    on a canvas with non-negative sides leaves the canvas as it was; a
    positive [spacing] that is at least as large as a side draws at most
    one line along that axis. *)
Theorem C5_overlay_failure_modes (draw : Image)
    (x y w h width height spacing : Z) (color : Color)
    (label : option string) (text : string) :
  (Overlay.draw_horizontal_line draw y width color label =
     draw_ops draw (OpLine 0 y width y color 1
                    :: label_ops label 4 (y - 14) color) /\
   Overlay.draw_vertical_line draw x height color label =
     draw_ops draw (OpLine x 0 x height color 1
                    :: label_ops label (x + 4) 4 color) /\
   Overlay.draw_label draw x y text color =
     draw_ops draw [OpText x y text color]) /\
  ((w < 0 ->
    Overlay.draw_bounding_box draw x y w h color label
      = Raised (ValueError "x1 must be greater than or equal to x0")) /\
   (0 <= w -> h < 0 ->
    Overlay.draw_bounding_box draw x y w h color label
      = Raised (ValueError "y1 must be greater than or equal to y0")) /\
   (0 <= w -> 0 <= h ->
    Overlay.draw_bounding_box draw x y w h color label
      = Ok (draw_ops draw (OpRectangle x y (x + w) (y + h) color 1
                           :: label_ops label x (y - 14) color)))) /\
  (spacing = 0 ->
   Overlay.draw_grid draw width height spacing color
     = Raised (ValueError "range() arg 3 must not be zero")) /\
  (spacing <> 0 ->
   exists xs ys : list Z,
     py_range 0 width spacing = Ok xs /\
     py_range 0 height spacing = Ok ys /\
     Overlay.draw_grid draw width height spacing color =
       Ok (draw_ops draw (map (fun x => OpLine x 0 x height color 1) xs
                          ++ map (fun y => OpLine 0 y width y color 1) ys)) /\
     (0 < spacing -> width <= spacing -> (List.length xs <= 1)%nat) /\
     (0 < spacing -> height <= spacing -> (List.length ys <= 1)%nat)) /\
  (spacing < 0 -> 0 <= width -> 0 <= height ->
   Overlay.draw_grid draw width height spacing color = Ok draw).
Proof.
  split; [|split; [|split; [|split]]].
  - split; [|split].
    + apply draw_op_label.
    + apply draw_op_label.
    + reflexivity.
  - split; [|split].
    + apply draw_bounding_box_narrow.
    + apply draw_bounding_box_flat.
    + apply draw_bounding_box_ok.
  - intros ->. reflexivity.
  - intros Hne.
    pose proof (py_range_ok 0 width spacing Hne) as Hx.
    pose proof (py_range_ok 0 height spacing Hne) as Hy.
    eexists _, _. split; [exact Hx|]. split; [exact Hy|].
    split; [apply (draw_grid_ok _ _ _ _ _ _ _ Hx Hy)|].
    split; intros Hpos Hwide; rewrite length_map, length_seq.
    + pose proof (range_length_wide_step width spacing Hpos Hwide). lia.
    + pose proof (range_length_wide_step height spacing Hpos Hwide). lia.
  - intros Hneg Hw Hh.
    assert (Hne : spacing <> 0) by lia.
    pose proof (py_range_ok 0 width spacing Hne) as Hx.
    pose proof (py_range_ok 0 height spacing Hne) as Hy.
    rewrite range_length_backwards in Hx, Hy by assumption.
    rewrite (draw_grid_ok _ _ _ _ _ _ _ Hx Hy). cbn [seq map app Z.to_nat].
    rewrite draw_ops_nil. reflexivity.
Qed.

End OverlayFacts.

(** ** The properties on concrete renderers *)

Section Instances.
Local Open Scope string_scope.

Lemma C2_overview_canvas_witness :
  exists (img : Image) (before : list Event) (last : Event),
    trace (render_overview (R := Example.ExampleRenderer) OUTPUT_DIR
             GRID_CELL_SIZE true tt)
      = (before ++ [ESave "build/previews/overview.png" img; last])%list /\
    img_width img = 520 /\ img_height img = 392.
Proof.
  assert (Hget : get_items (PreviewRenderer := Example.ExampleRenderer) tt
                 = (Example.EXAMPLE_ITEMS, tt, [])) by reflexivity.
  assert (Hne : Example.EXAMPLE_ITEMS <> []) by discriminate.
  destruct (C2_overview_canvas (R := Example.ExampleRenderer) OUTPUT_DIR
              GRID_CELL_SIZE true tt tt Example.EXAMPLE_ITEMS [] Hget Hne)
    as (img & before & last & Ht & _ & _ & _ & H10).
  exists img, before, last.
  exact (conj Ht (H10 eq_refl eq_refl)).
Defined.

Lemma C3_placement_witness :
  exists (final : Image) (before : list Event) (last : Event)
         (later : list DrawOp),
    trace (render_overview (R := Table.TableRenderer Table.flaky) "out" 64 true
             0%nat)
      = (before ++ [ESave "out/overview.png" final; last])%list /\
    img_ops final
      = ([OpFill GRID_BG;
          OpPaste (Table.blank 64) 8 8; OpText 10 10 "a" LABEL_COLOR]
         ++ [OpPaste (Table.blank 64) 152 8; OpText 154 10 "d" LABEL_COLOR]
         ++ later)%list.
Proof.
  destruct (C3_placement (R := Table.TableRenderer Table.flaky) "out" 64 true
              0%nat 0%nat [] ["a"; "b/c"] [] "d" eq_refl)
    as (_ & Hpaste & _ & _).
  exact (Hpaste _ (Table.blank 64) 2%nat 3%nat _ [] eq_refl eq_refl).
Defined.

Lemma C4_absent_result_is_skipped_witness :
  (exists (s3 : nat) (t3 : list Event),
     render_items (R := Table.TableRenderer Table.flaky) "out"
       ["a"; "b/c"; "d"] 64 true 0%nat
     = (tt, s3,
        [EMakedirs "out"; ECallRender "a" 64 true;
         ESave "out/a.png" (Table.blank 64); EPrint "  a -> out/a.png";
         ECallRender "b/c" 64 true;
         EPrint "  Warning: render_item returned None for 'b/c', skipping"]
        ++ t3)%list /\
     In (ECallRender "d" 64 true) t3) /\
  (exists (canvas3 : Image) (s3 : nat) (t3 : list Event),
     place_cells (R := Table.TableRenderer Table.flaky) 3 64 0
       ["a"; "b/c"; "d"] (Image_new "RGB" 224 80 GRID_BG) 0%nat
     = (canvas3, s3,
        [ECallRender "a" 64 false; ECallRender "b/c" 64 false] ++ t3)%list /\
     In (ECallRender "d" 64 false) t3).
Proof.
  destruct (C4_absent_result_is_skipped (R := Table.TableRenderer Table.flaky)
              "out" 64 true ["a"] ["d"] "b/c" 0%nat) as [Hitems _].
  destruct (C4_absent_result_is_skipped (R := Table.TableRenderer Table.flaky)
              "out" 64 false ["a"] ["d"] "b/c" 0%nat) as [_ Hcells].
  split.
  - destruct (Hitems 1%nat 2%nat _ [] eq_refl eq_refl) as (s3 & t3 & _ & Hrun & Hin).
    exists s3, t3. exact (conj Hrun (Hin "d" (or_introl eq_refl))).
  - destruct (Hcells 3 0 (Image_new "RGB" 224 80 GRID_BG) _ 1%nat 2%nat _ []
                eq_refl eq_refl) as (c3 & s3 & t3 & _ & Hrun & Hin).
    exists c3, s3, t3. exact (conj Hrun (Hin "d" (or_introl eq_refl))).
Defined.

(** C5 as the specification words it fails for a zero spacing: the
    call on a 400 by 400 canvas raises instead of drawing nothing. *)
Lemma C5_counterexample_zero_spacing :
  ~ (exists out : Image,
       Overlay.draw_grid (Image_new "RGBA" 400 400 [0; 0; 0; 0]) 400 400 0
         Overlay.draw_grid_default_color = Ok out).
Proof. intros [out H]. discriminate H. Qed.

(** [draw_bounding_box] with a negative width raises as well: nothing
    is drawn and the call does not return. *)
Lemma C5_counterexample_negative_box :
  ~ (exists out : Image,
       Overlay.draw_bounding_box (Image_new "RGBA" 400 400 [0; 0; 0; 0])
         10 10 (-1) 20 [255; 80; 80; 100] (Some "bounds") = Ok out).
Proof. intros [out H]. discriminate H. Qed.

Lemma C5_overlay_failure_modes_witness :
  Overlay.draw_bounding_box (Image_new "RGBA" 400 300 [0; 0; 0; 0])
    10 20 (-1) 5 [60; 60; 80; 80] (Some "bounds")
    = Raised (ValueError "x1 must be greater than or equal to x0") /\
  Overlay.draw_bounding_box (Image_new "RGBA" 400 300 [0; 0; 0; 0])
    10 20 5 (-1) [60; 60; 80; 80] (Some "bounds")
    = Raised (ValueError "y1 must be greater than or equal to y0") /\
  Overlay.draw_bounding_box (Image_new "RGBA" 400 300 [0; 0; 0; 0])
    10 20 0 0 [60; 60; 80; 80] (Some "bounds")
    = Ok (mkImage "RGBA" 400 300
            [OpFill [0; 0; 0; 0]; OpRectangle 10 20 10 20 [60; 60; 80; 80] 1;
             OpText 10 6 "bounds" [60; 60; 80; 80]]) /\
  Overlay.draw_grid (Image_new "RGBA" 400 300 [0; 0; 0; 0]) 400 300 0 [60; 60; 80; 80]
    = Raised (ValueError "range() arg 3 must not be zero") /\
  (exists xs ys : list Z,
     py_range 0 400 400 = Ok xs /\ py_range 0 300 400 = Ok ys /\
     (List.length xs <= 1)%nat /\ (List.length ys <= 1)%nat) /\
  Overlay.draw_grid (Image_new "RGBA" 400 300 [0; 0; 0; 0]) 400 300 (-50)
    [60; 60; 80; 80] = Ok (Image_new "RGBA" 400 300 [0; 0; 0; 0]).
Proof.
  pose (canvas := Image_new "RGBA" 400 300 [0; 0; 0; 0]).
  pose (color := [60; 60; 80; 80] : Color).
  destruct (C5_overlay_failure_modes canvas 10 20 (-1) 5 400 300 0 color
              (Some "bounds") "a") as (_ & (Hnarrow & _ & _) & Hzero & _ & _).
  destruct (C5_overlay_failure_modes canvas 10 20 5 (-1) 400 300 400 color
              (Some "bounds") "a") as (_ & (_ & Hflat & _) & _ & Hwide & _).
  destruct (C5_overlay_failure_modes canvas 10 20 0 0 400 300 (-50) color
              (Some "bounds") "a") as (_ & (_ & _ & Hbox) & _ & _ & Hneg).
  split; [exact (Hnarrow ltac:(lia))|].
  split; [exact (Hflat ltac:(lia) ltac:(lia))|].
  split; [exact (Hbox ltac:(lia) ltac:(lia))|].
  split; [exact (Hzero eq_refl)|]. split.
  - destruct (Hwide ltac:(lia)) as (xs & ys & Hx & Hy & _ & Lx & Ly).
    exists xs, ys.
    exact (conj Hx (conj Hy (conj (Lx ltac:(lia) ltac:(lia))
                                  (Ly ltac:(lia) ltac:(lia))))).
  - exact (Hneg ltac:(lia) ltac:(lia) ltac:(lia)).
Defined.

(** C6 as the specification words it fails: asked for the overview of
    the subset [a] only, the run still composes [b/c] and [d], which
    [get_items] lists, and so differs from a composition over [a]. *)
Lemma C6_counterexample_subset_ignored :
  run (R := Table.TableRenderer Table.flaky) "out" (Some ["a"]) 400 true true
      false 0%nat
    <> SpecText.overview_only_run (R := Table.TableRenderer Table.flaky) "out"
         (Some ["a"]) true 0%nat /\
  In (ECallRender "d" GRID_CELL_SIZE false)
     (trace (run (R := Table.TableRenderer Table.flaky) "out" (Some ["a"]) 400
               true true false 0%nat)) /\
  ~ In "d" ["a"].
Proof.
  split; [|split].
  - intros H. apply (f_equal state) in H. vm_compute in H. discriminate H.
  - vm_compute. tauto.
  - intros [H | []]. discriminate H.
Qed.

Lemma C6_overview_only_uses_all_items_witness :
  run (R := Table.TableRenderer Table.flaky) "out" (Some ["a"]) 400 true true
      false 0%nat
    = run (R := Table.TableRenderer Table.flaky) "out" None 64 true true true
        0%nat /\
  In (ECallRender "d" GRID_CELL_SIZE false)
     (trace (compose_overview (R := Table.TableRenderer Table.flaky) "out"
               ["a"; "b/c"; "d"] GRID_CELL_SIZE 0%nat)).
Proof.
  destruct (C6_overview_only_uses_all_items
              (R := Table.TableRenderer Table.flaky) "out"
              (Some ["a"]) None 400 64 true false true 0%nat) as [Hsame Hall].
  destruct (Hall 0%nat 0%nat [] [] "a" ["b/c"; "d"] eq_refl eq_refl)
    as [_ Hin].
  exact (conj Hsame (Hin "d" (or_intror (or_intror (or_introl eq_refl))))).
Defined.

Lemma C7_empty_overview_witness :
  render_overview (R := Table.TableRenderer Table.empty) "out" GRID_CELL_SIZE
    true 0%nat
    = (tt, 0%nat, [ECallGetItems; EPrint "  No items to render in overview"]) /\
  value (run (R := Table.TableRenderer Table.empty) "out" None 400 true false
           false 0%nat) = true.
Proof.
  destruct (C7_empty_overview (R := Table.TableRenderer Table.empty) "out"
              GRID_CELL_SIZE true 0%nat 0%nat [] eq_refl) as (Hov & _ & Hrun).
  exact (conj Hov (Hrun None 400 false false 0%nat [] eq_refl)).
Defined.

Lemma C8_run_outcome_witness :
  run (R := Table.TableRenderer Table.unloadable) "out" None 400 true false
      false 0%nat
    = (false, 0%nat,
       [EPrint "Loading artifact..."; ECallLoad;
        EPrint "Error: Failed to load artifact"]) /\
  value (run (R := Table.TableRenderer Table.flaky) "out" None 400 true false
           false 0%nat) = true.
Proof.
  destruct (C8_run_outcome (R := Table.TableRenderer Table.unloadable) "out"
              None 400 true false false 0%nat) as (_ & Hfail & _).
  destruct (C8_run_outcome (R := Table.TableRenderer Table.flaky) "out"
              None 400 true false false 0%nat) as (Hval & _ & _).
  exact (conj (Hfail eq_refl) Hval).
Defined.

Lemma C9_item_saved_under_safe_name_witness :
  exists before after : list Event,
    trace (render_items (R := Example.ExampleRenderer) OUTPUT_DIR
             ["button"; "icons/arrow\left"] 32 false tt)
    = EMakedirs "build/previews"
        :: (before
            ++ ESave "build/previews/icons_arrow_left.png"
                 (Example.render "icons/arrow\left" 32 false) :: after)%list.
Proof.
  destruct (C9_item_saved_under_safe_name (R := Example.ExampleRenderer)
              OUTPUT_DIR 32 false ["button"] [] "icons/arrow\left" tt tt tt
              _ _ [] eq_refl eq_refl) as (Hsave & _).
  exact Hsave.
Defined.

Lemma C10_empty_subset_is_no_subset_witness :
  run (R := Example.ExampleRenderer) OUTPUT_DIR (Some []) 400 true false false tt
    = run (R := Example.ExampleRenderer) OUTPUT_DIR None 400 true false false tt /\
  In (ECallRender "tooltip" 400 true)
     (trace (run (R := Example.ExampleRenderer) OUTPUT_DIR (Some []) 400 true
               false false tt)).
Proof.
  destruct (C10_empty_subset_is_no_subset (R := Example.ExampleRenderer)
              OUTPUT_DIR 400 true false false tt) as [Hsame Hall].
  refine (conj Hsame (Hall tt tt _ [] Example.EXAMPLE_ITEMS eq_refl eq_refl
                        "tooltip" _)).
  vm_compute. tauto.
Defined.

End Instances.

(** ** More on the grid of [render_overview] *)

Section GridLayout.
Import Grid.

Lemma ceil_sqrt_least (n c : Z) :
  1 <= n -> 0 <= c -> 3 * n <= 2 * (c * c) ->
  ceil_sqrt (inject_Z n * (3 # 2)) <= c.
Proof.
  intros Hn Hc Hle.
  pose proof (ceil_sqrt_three_halves n Hn) as [Hk [Hlo Hhi]]. cbv zeta in *.
  set (k := ceil_sqrt (inject_Z n * (3 # 2))) in *.
  destruct (Z_le_gt_dec k c) as [L | G]; [exact L|]. nia.
Qed.

Lemma cols_uncapped (n : Z) :
  1 <= n <= 150 -> cols n = ceil_sqrt (inject_Z n * (3 # 2)) /\ cols n <= 15.
Proof.
  intros Hn. unfold cols.
  pose proof (ceil_sqrt_least n 15 ltac:(lia) ltac:(lia) ltac:(lia)) as H.
  split; [apply Z.min_l; lia | lia].
Qed.

(** X1. The comment on the column formula says "wider than tall": the
    grid has at least as many columns as rows exactly up to 256 items;
    from 257 on the 16-column cap makes it taller than wide. *)
Theorem X1_wider_than_tall_up_to_256 (n : Z) :
  1 <= n -> (rows n <= cols n <-> n <= 256).
Proof.
  intros Hn.
  pose proof (rows_spec n Hn) as Hr.
  destruct (Z_le_gt_dec n 150) as [Hsmall | Hbig].
  - split; [lia|]. intros _.
    destruct (cols_uncapped n ltac:(lia)) as [Hc _].
    pose proof (ceil_sqrt_three_halves n Hn) as [Hk [Hlo Hhi]]. cbv zeta in *.
    rewrite <- Hc in *.
    destruct (Z_le_gt_dec (rows n) (cols n)) as [L | G]; [exact L|]. nia.
  - rewrite (cols_capped n ltac:(lia)) in *. lia.
Qed.

Lemma X1_wider_than_tall_up_to_256_witness :
  1 <= 256 /\ rows 256 <= cols 256 /\ ~ rows 257 <= cols 257.
Proof.
  assert (H : 1 <= 256) by lia.
  assert (H' : 1 <= 257) by lia.
  destruct (X1_wider_than_tall_up_to_256 256 H) as [_ Hyes].
  destruct (X1_wider_than_tall_up_to_256 257 H') as [Hno _].
  refine (conj H (conj (Hyes _) (fun Hle => _))); [lia|].
  specialize (Hno Hle). lia.
Defined.

(** X2. More items never mean fewer columns, and the cap of 16 columns
    is reached exactly from 151 items on. *)
Theorem X2_cols_monotone_and_capped (n m : Z) :
  1 <= n -> n <= m ->
  cols n <= cols m /\ (cols n = 16 <-> 151 <= n).
Proof.
  intros Hn Hm. split.
  - unfold cols. apply Z.min_le_compat_r.
    pose proof (ceil_sqrt_three_halves m ltac:(lia)) as [Hk [Hlo Hhi]].
    cbv zeta in *. apply ceil_sqrt_least; lia.
  - split.
    + intros H16. destruct (Z_le_gt_dec n 150) as [Hsmall | Hbig]; [|lia].
      destruct (cols_uncapped n ltac:(lia)) as [_ Hc]. lia.
    + apply cols_capped.
Qed.

Lemma X2_cols_monotone_and_capped_witness :
  1 <= 150 /\ cols 150 <= cols 151 /\ cols 150 <> 16 /\ cols 151 = 16.
Proof.
  assert (H : 1 <= 150) by lia.
  assert (H' : 150 <= 151) by lia.
  destruct (X2_cols_monotone_and_capped 150 151 H H') as [Hle [Hcap _]].
  destruct (X2_cols_monotone_and_capped 151 151 ltac:(lia) ltac:(lia))
    as [_ [_ Hcap']].
  refine (conj H (conj Hle (conj (fun E => _) (Hcap' _)))); [|lia].
  specialize (Hcap E). lia.
Defined.

(** X3. Every cell lies inside the canvas, with the frame of one
    padding around the grid: for an index of the list and a cell size
    that is not negative, the cell starts at least [GRID_PADDING] from
    the left and top edges and ends at least [GRID_PADDING] before the
    right and bottom ones. *)
Theorem X3_cell_inside_canvas (n size idx : Z) :
  1 <= n -> 0 <= idx < n -> 0 <= size ->
  GRID_PADDING <= cell_x n size idx /\
  cell_x n size idx + size + GRID_PADDING <= img_w n size /\
  GRID_PADDING <= cell_y n size idx /\
  cell_y n size idx + size + GRID_PADDING <= img_h n size.
Proof.
  intros Hn Hidx Hsize.
  destruct (placement_in_grid n idx Hn Hidx) as [Hc Hr].
  unfold cell_x, cell_y, img_w, img_h, cell, GRID_PADDING in *. nia.
Qed.

Lemma X3_cell_inside_canvas_witness :
  GRID_PADDING <= cell_x 10 120 9 /\
  cell_x 10 120 9 + 120 + GRID_PADDING <= 520 /\
  GRID_PADDING <= cell_y 10 120 9 /\
  cell_y 10 120 9 + 120 + GRID_PADDING <= 392.
Proof.
  exact (X3_cell_inside_canvas 10 120 9 ltac:(lia) ltac:(lia) ltac:(lia)).
Defined.

(** X4. Cells do not overlap: two different indices of the list give
    cells that are at least one padding apart, horizontally or
    vertically. *)
Theorem X4_cells_do_not_overlap (n size i j : Z) :
  1 <= n -> 0 <= size -> 0 <= i < n -> 0 <= j < n -> i <> j ->
  cell_x n size i + size + GRID_PADDING <= cell_x n size j \/
  cell_x n size j + size + GRID_PADDING <= cell_x n size i \/
  cell_y n size i + size + GRID_PADDING <= cell_y n size j \/
  cell_y n size j + size + GRID_PADDING <= cell_y n size i.
Proof.
  intros Hn Hsize Hi Hj Hne.
  assert (Hcr : col n i <> col n j \/ row n i <> row n j).
  { destruct (Z.eq_dec (col n i) (col n j)) as [Ec | Nc]; [|left; exact Nc].
    right. intros Er. apply Hne. apply (placement_injective n i j Hn Ec Er). }
  unfold cell_x, cell_y, cell, GRID_PADDING.
  destruct Hcr as [Hc | Hr].
  - destruct (Z.lt_trichotomy (col n i) (col n j)) as [L | [E | G]];
      [left; nia | contradiction | right; left; nia].
  - destruct (Z.lt_trichotomy (row n i) (row n j)) as [L | [E | G]];
      [right; right; left; nia | contradiction | right; right; right; nia].
Qed.

Lemma X4_cells_do_not_overlap_witness :
  cell_x 10 120 3 + 120 + GRID_PADDING <= cell_x 10 120 4 \/
  cell_x 10 120 4 + 120 + GRID_PADDING <= cell_x 10 120 3 \/
  cell_y 10 120 3 + 120 + GRID_PADDING <= cell_y 10 120 4 \/
  cell_y 10 120 4 + 120 + GRID_PADDING <= cell_y 10 120 3.
Proof.
  exact (X4_cells_do_not_overlap 10 120 3 4 ltac:(lia) ltac:(lia) ltac:(lia)
           ltac:(lia) ltac:(lia)).
Defined.

End GridLayout.

(** ** More on file names *)

Section FileNames.
Local Open Scope string_scope.

Lemma sanitize_idempotent (name : string) :
  SpecText.sanitize (SpecText.sanitize name) = SpecText.sanitize name.
Proof.
  induction name as [| c rest IH]; [reflexivity|].
  cbn [SpecText.sanitize]. rewrite IH.
  destruct (Ascii.eqb c "/") eqn:E1; [reflexivity|].
  destruct (Ascii.eqb c "\") eqn:E2; [reflexivity|].
  cbn [orb]. rewrite E1, E2. reflexivity.
Qed.

Lemma sanitize_clean (name : string) :
  contains_char "/" name = false -> contains_char "\" name = false ->
  SpecText.sanitize name = name.
Proof.
  induction name as [| c rest IH]; [reflexivity|].
  cbn [contains_char SpecText.sanitize]. intros H1 H2.
  apply orb_false_elim in H1. destruct H1 as [H1 H1'].
  apply orb_false_elim in H2. destruct H2 as [H2 H2'].
  rewrite H1, H2, (IH H1' H2'). reflexivity.
Qed.

Lemma contains_char_app (c : ascii) (a b : string) :
  contains_char c (a ++ b) = (contains_char c a || contains_char c b)%bool.
Proof.
  induction a as [| d rest IH]; [reflexivity|].
  cbn [append contains_char]. rewrite IH. apply orb_assoc.
Qed.

(** X5. Sanitizing a name keeps its length, changes nothing in a name
    without [/] and [\], and sanitizing twice is sanitizing once. *)
Theorem X5_safe_name_stable (name : string) :
  String.length (safe_name name) = String.length name /\
  safe_name (safe_name name) = safe_name name /\
  (contains_char "/" name = false -> contains_char "\" name = false ->
   safe_name name = name).
Proof.
  unfold safe_name. rewrite !replace_twice_is_sanitize.
  split; [apply sanitize_length|]. split; [apply sanitize_idempotent|].
  apply sanitize_clean.
Qed.

Lemma X5_safe_name_stable_witness :
  String.length (safe_name "a/b\c") = 5%nat /\
  safe_name (safe_name "a/b\c") = safe_name "a/b\c" /\
  safe_name "page-1" = "page-1".
Proof.
  destruct (X5_safe_name_stable "a/b\c") as (Hlen & Hidem & _).
  destruct (X5_safe_name_stable "page-1") as (_ & _ & Hclean).
  exact (conj Hlen (conj Hidem (Hclean eq_refl eq_refl))).
Defined.

(** X6. Names are not kept apart: a name with a [/] or a [\] in it
    differs from its sanitized form, yet both are saved under the same
    path, so whichever is rendered later replaces the other's file. *)
Theorem X6_separator_names_collide (output_dir name : string) :
  (contains_char "/" name || contains_char "\" name)%bool = true ->
  safe_name name <> name /\
  item_path output_dir (safe_name name) = item_path output_dir name.
Proof.
  intros Hsep. split.
  - intros E. unfold safe_name in E. rewrite replace_twice_is_sanitize in E.
    pose proof (sanitize_no_slash name) as H1.
    pose proof (sanitize_no_backslash name) as H2.
    rewrite E in H1, H2. rewrite H1, H2 in Hsep. discriminate Hsep.
  - unfold item_path, safe_name.
    rewrite !replace_twice_is_sanitize, sanitize_idempotent. reflexivity.
Qed.

Lemma X6_separator_names_collide_witness :
  safe_name "icons/home" <> "icons/home" /\
  item_path "out" (safe_name "icons/home") = item_path "out" "icons/home".
Proof.
  exact (X6_separator_names_collide "out" "icons/home" eq_refl).
Defined.

Lemma item_path_shape (output_dir name : string) :
  item_path output_dir name =
  output_dir ++
  (if (String.eqb output_dir EmptyString || endswith_sep output_dir)%bool
   then EmptyString else "/") ++ safe_name name ++ ".png".
Proof.
  unfold item_path, os_path_join.
  rewrite (startswith_sep_no_slash (safe_name name) ".png");
    [| unfold safe_name; rewrite replace_twice_is_sanitize;
       apply sanitize_no_slash | reflexivity].
  destruct (String.eqb output_dir EmptyString || endswith_sep output_dir)%bool;
    reflexivity.
Qed.

(** X7. An item file is always placed directly in the output directory,
    whatever the item is called: its path is the directory, then one
    [/] unless the directory is empty or already ends in one, then a
    file name that holds neither [/] nor [\] and ends in [.png]. *)
Theorem X7_item_file_stays_in_output_dir (output_dir name : string) :
  let sep :=
    if (String.eqb output_dir EmptyString || endswith_sep output_dir)%bool
    then EmptyString else "/" in
  let file := safe_name name ++ ".png" in
  item_path output_dir name = output_dir ++ sep ++ file /\
  contains_char "/" file = false /\
  contains_char "\" file = false.
Proof.
  intros sep file. subst sep file.
  assert (Hs : safe_name name = SpecText.sanitize name)
    by apply replace_twice_is_sanitize.
  split; [apply item_path_shape|]. split.
  - rewrite contains_char_app, Hs, sanitize_no_slash. reflexivity.
  - rewrite contains_char_app, Hs, sanitize_no_backslash. reflexivity.
Qed.

Lemma append_cancel_l (p a b : string) : p ++ a = p ++ b -> a = b.
Proof.
  induction p as [| c p IH]; [trivial|].
  cbn [append]. intros H. injection H as H. apply IH. exact H.
Qed.

Lemma list_ascii_of_append (a b : string) :
  list_ascii_of_string (a ++ b)
  = (list_ascii_of_string a ++ list_ascii_of_string b)%list.
Proof.
  induction a as [| c a IH]; [reflexivity|].
  cbn [append list_ascii_of_string app]. rewrite IH. reflexivity.
Qed.

Lemma append_cancel_r (a b c : string) : a ++ c = b ++ c -> a = b.
Proof.
  intros H. apply (f_equal list_ascii_of_string) in H.
  rewrite !list_ascii_of_append in H. apply app_inv_tail in H.
  rewrite <- (string_of_list_ascii_of_string a).
  rewrite <- (string_of_list_ascii_of_string b). rewrite H. reflexivity.
Qed.

(** An item file and the overview file are the same file exactly when
    the item's sanitized name is [overview]. *)
Lemma item_path_is_overview_path (output_dir name : string) :
  item_path output_dir name = overview_path output_dir
  <-> safe_name name = "overview".
Proof.
  rewrite item_path_shape.
  assert (Hov : overview_path output_dir
                = output_dir ++
                  (if (String.eqb output_dir EmptyString
                       || endswith_sep output_dir)%bool
                   then EmptyString else "/") ++ "overview" ++ ".png").
  { unfold overview_path, os_path_join. cbn [startswith_sep OVERVIEW_FILENAME].
    cbn [Ascii.eqb Bool.eqb andb].
    destruct (String.eqb output_dir EmptyString || endswith_sep output_dir)%bool;
      reflexivity. }
  rewrite Hov. split.
  - intros H. apply append_cancel_l, append_cancel_l in H.
    apply append_cancel_r in H. exact H.
  - intros ->. reflexivity.
Qed.

End FileNames.

(** ** More on the overlay helpers *)

Section GridLines.

Lemma py_range_from_zero (stop step : Z) (xs : list Z) :
  0 < step ->
  py_range 0 stop step = Ok xs ->
  (forall x, In x xs <-> 0 <= x < stop /\ x mod step = 0) /\
  Z.of_nat (List.length xs) = Z.max 0 ((stop + step - 1) / step).
Proof.
  intros Hstep Hrange.
  rewrite py_range_ok in Hrange by lia. injection Hrange as <-.
  assert (Hlen : range_length 0 stop step
                 = if 0 <? stop then (stop - 1) / step + 1 else 0).
  { unfold range_length, len_of_range.
    destruct (Z.ltb_spec 0 step); [|lia]. rewrite Z.sub_0_r. reflexivity. }
  assert (Hq : 0 < stop -> 0 <= (stop - 1) / step)
    by (intros; apply Z.div_pos; lia).
  split.
  - intros x. rewrite in_map_iff. split.
    + intros (i & <- & Hi). apply in_seq in Hi. rewrite Hlen in Hi.
      destruct (Z.ltb_spec 0 stop) as [Hpos | Hneg]; [|cbn in Hi; lia].
      specialize (Hq Hpos).
      pose proof (Z.mul_div_le (stop - 1) step Hstep) as Hle.
      split; [nia|]. apply Z.mod_mul. lia.
    + intros [Hx Hmod]. exists (Z.to_nat (x / step)).
      pose proof (Z.div_pos x step ltac:(lia) Hstep) as Hd.
      rewrite Z2Nat.id by assumption. split.
      * pose proof (Z.div_mod x step ltac:(lia)) as Hdm. lia.
      * apply in_seq. rewrite Hlen.
        destruct (Z.ltb_spec 0 stop) as [Hpos | Hneg]; [|lia].
        specialize (Hq Hpos).
        pose proof (Z.div_le_mono x (stop - 1) step Hstep ltac:(lia)) as Hmono.
        lia.
  - rewrite length_map, length_seq, Hlen.
    destruct (Z.ltb_spec 0 stop) as [Hpos | Hneg].
    + specialize (Hq Hpos). rewrite Z2Nat.id by lia.
      replace (stop + step - 1) with (stop - 1 + 1 * step) by lia.
      rewrite Z.div_add by lia. lia.
    + cbn. assert ((stop + step - 1) / step <= 0); [|lia].
      assert (H : (stop + step - 1) / step < 1); [|lia].
      apply Z.div_lt_upper_bound; lia.
Qed.

(** X8. With a positive spacing [draw_grid] succeeds and adds, to what
    is on the canvas, first the vertical lines and then the horizontal
    ones; a vertical line is drawn at [x] exactly when [x] is a multiple
    of the spacing with [0 <= x < width] (so never on the right edge),
    which makes [ceil(width / spacing)] of them, and likewise for the
    horizontal lines and the height. *)
Theorem X8_grid_lines (draw : Image) (width height spacing : Z) (color : Color) :
  0 < spacing ->
  exists xs ys : list Z,
    Overlay.draw_grid draw width height spacing color =
      Ok (draw_ops draw (map (fun x => OpLine x 0 x height color 1) xs
                         ++ map (fun y => OpLine 0 y width y color 1) ys)) /\
    (forall x, In x xs <-> 0 <= x < width /\ x mod spacing = 0) /\
    (forall y, In y ys <-> 0 <= y < height /\ y mod spacing = 0) /\
    Z.of_nat (List.length xs) = Z.max 0 ((width + spacing - 1) / spacing) /\
    Z.of_nat (List.length ys) = Z.max 0 ((height + spacing - 1) / spacing).
Proof.
  intros Hpos.
  pose proof (py_range_ok 0 width spacing ltac:(lia)) as Hx.
  pose proof (py_range_ok 0 height spacing ltac:(lia)) as Hy.
  destruct (py_range_from_zero width spacing _ Hpos Hx) as [Mx Lx].
  destruct (py_range_from_zero height spacing _ Hpos Hy) as [My Ly].
  eexists _, _. split; [apply (draw_grid_ok _ _ _ _ _ _ _ Hx Hy)|].
  split; [exact Mx|]. split; [exact My|]. split; [exact Lx | exact Ly].
Qed.

Lemma X8_grid_lines_witness :
  exists xs ys : list Z,
    Overlay.draw_grid (Image_new "RGBA" 100 50 [0; 0; 0; 0]) 100 50 25
      Overlay.draw_grid_default_color =
      Ok (draw_ops (Image_new "RGBA" 100 50 [0; 0; 0; 0])
            (map (fun x => OpLine x 0 x 50 Overlay.draw_grid_default_color 1) xs
             ++ map (fun y => OpLine 0 y 100 y Overlay.draw_grid_default_color 1)
                  ys)) /\
    In 75 xs /\ ~ In 100 xs /\
    Z.of_nat (List.length xs) = 4 /\ Z.of_nat (List.length ys) = 2.
Proof.
  destruct (X8_grid_lines (Image_new "RGBA" 100 50 [0; 0; 0; 0]) 100 50 25
              Overlay.draw_grid_default_color ltac:(lia))
    as (xs & ys & Hdraw & Mx & _ & Lx & Ly).
  exists xs, ys. split; [exact Hdraw|].
  split; [apply Mx; split; [lia | reflexivity]|].
  split; [intros H; apply Mx in H; lia|].
  split; [exact Lx | exact Ly].
Defined.

End GridLines.

(** ** What a run calls and writes *)

Section Schedule.
Context {RS : Type} {R : PreviewRenderer RS}.
Variable output_dir : string.

Local Open Scope py_scope.

Lemma pick_app {A} (f : Event -> option A) (a b : list Event) :
  pick f (a ++ b) = pick f a ++ pick f b.
Proof.
  induction a as [| e a IH]; [reflexivity|].
  cbn [app pick]. rewrite IH. destruct (f e); reflexivity.
Qed.

Lemma pick_prints {A} (f : Event -> option A) (out : list string) :
  (forall line, f (EPrint line) = None) -> pick f (map EPrint out) = [].
Proof.
  intros Hf. induction out as [| l out IH]; [reflexivity|].
  cbn [map pick]. rewrite Hf. exact IH.
Qed.

Lemma pick_render_one {A} (f : Event -> option A) (size : Z) (overlays : bool)
    (name : string) (s : RS) :
  silent f ->
  pick f (trace (render_one output_dir size overlays name s)) =
  pick f [ECallRender name size overlays] ++
  match value (render_item name size overlays s) with
  | Some img => pick f [ESave (item_path output_dir name) img]
  | None => []
  end.
Proof.
  intros Hf.
  destruct (render_item name size overlays s) as [[[img |] s1] out] eqn:E.
  - rewrite (render_one_present _ _ _ _ _ _ _ _ E). cbn [trace value fst snd].
    change (ECallRender name size overlays :: map EPrint out ++ ?l)
      with ([ECallRender name size overlays] ++ map EPrint out ++ l).
    rewrite !pick_app, (pick_prints f out Hf).
    change [ESave ?p img; EPrint ?l] with ([ESave p img] ++ [EPrint l]).
    rewrite pick_app. cbn [pick]. rewrite Hf, app_nil_r. reflexivity.
  - rewrite (render_one_absent _ _ _ _ _ _ _ E). cbn [trace value fst snd].
    change (ECallRender name size overlays :: map EPrint out ++ ?l)
      with ([ECallRender name size overlays] ++ map EPrint out ++ l).
    rewrite !pick_app, (pick_prints f out Hf).
    cbn [pick]. rewrite Hf. reflexivity.
Qed.

Lemma pick_for_each {A} (f : Event -> option A) (g : string -> list A)
    (size : Z) (overlays : bool) (names : list string) :
  silent f ->
  (forall name s,
     match value (render_item name size overlays s) with
     | Some img => pick f [ESave (item_path output_dir name) img]
     | None => []
     end = g name) ->
  forall s,
  pick f (trace (for_each (render_one output_dir size overlays) names s)) =
  flat_map (fun name => pick f [ECallRender name size overlays] ++ g name) names.
Proof.
  intros Hf Hg. induction names as [| name rest IH]; intros s; [reflexivity|].
  cbn [for_each flat_map]. rewrite bind_eq. cbn [trace snd].
  rewrite pick_app, IH. fold (trace (render_one output_dir size overlays name s)).
  rewrite (pick_render_one f _ _ _ _ Hf), Hg. reflexivity.
Qed.

Lemma pick_render_items {A} (f : Event -> option A) (g : string -> list A)
    (size : Z) (overlays : bool) (names : list string) (s : RS) :
  silent f ->
  (forall name s,
     match value (render_item name size overlays s) with
     | Some img => pick f [ESave (item_path output_dir name) img]
     | None => []
     end = g name) ->
  pick f (trace (render_items output_dir names size overlays s)) =
  pick f [EMakedirs output_dir] ++
  flat_map (fun name => pick f [ECallRender name size overlays] ++ g name) names.
Proof.
  intros Hf Hg. unfold render_items. rewrite bind_eq. cbn [trace snd emit].
  rewrite pick_app.
  fold (trace (for_each (render_one output_dir size overlays) names
                 (state (tt, s, [EMakedirs output_dir])))).
  rewrite (pick_for_each f g _ _ _ Hf Hg). reflexivity.
Qed.

Lemma pick_place_cell {A} (f : Event -> option A) (n size idx : Z)
    (name : string) (overview : Image) (s : RS) :
  silent f ->
  pick f (trace (place_cell n size idx name overview s)) =
  pick f [ECallRender name size false].
Proof.
  intros Hf.
  destruct (render_item name size false s) as [[[img |] s1] out] eqn:E.
  - rewrite (place_cell_present _ _ _ _ _ _ _ _ _ E). cbn [trace snd].
    change (ECallRender name size false :: map EPrint out)
      with ([ECallRender name size false] ++ map EPrint out).
    rewrite pick_app, (pick_prints f out Hf), app_nil_r. reflexivity.
  - rewrite (place_cell_absent _ _ _ _ _ _ _ _ E). cbn [trace snd].
    change (ECallRender name size false :: map EPrint out)
      with ([ECallRender name size false] ++ map EPrint out).
    rewrite pick_app, (pick_prints f out Hf), app_nil_r. reflexivity.
Qed.

Lemma pick_place_cells {A} (f : Event -> option A) (n size : Z)
    (items : list string) :
  silent f ->
  forall (idx : Z) (overview : Image) (s : RS),
  pick f (trace (place_cells n size idx items overview s)) =
  flat_map (fun name => pick f [ECallRender name size false]) items.
Proof.
  intros Hf. induction items as [| name rest IH]; intros idx overview s;
    [reflexivity|].
  cbn [place_cells flat_map]. rewrite bind_eq. cbn [trace snd].
  rewrite pick_app, IH.
  fold (trace (place_cell n size idx name overview s)).
  rewrite (pick_place_cell f _ _ _ _ _ _ Hf). reflexivity.
Qed.

(** The canvas the overview loop leaves, when [f] tells what
    [render_item] returns for each name. *)
Lemma place_cells_value (f : string -> option Image) (n size : Z)
    (items : list string) :
  (forall name s, value (render_item name size false s) = f name) ->
  forall (idx : Z) (overview : Image) (s : RS),
  value (place_cells n size idx items overview s) =
  draw_ops overview (cells_ops f n size idx items).
Proof.
  intros Hres. induction items as [| name rest IH]; intros idx overview s.
  - cbn. symmetry. apply draw_ops_nil.
  - cbn [place_cells cells_ops]. rewrite bind_eq. cbn [value fst].
    rewrite IH. rewrite <- draw_ops_app. f_equal.
    rewrite <- (Hres name s).
    destruct (render_item name size false s) as [[[img |] s1] out] eqn:E.
    + rewrite (place_cell_present _ _ _ _ _ _ _ _ _ E).
      cbn [value fst cell_ops]. unfold Image_paste.
      change (draw_op (draw_op overview ?a) ?b)
        with (draw_ops (draw_ops overview [a]) [b]).
      rewrite draw_ops_app. reflexivity.
    + rewrite (place_cell_absent _ _ _ _ _ _ _ _ E). cbn.
      symmetry. apply draw_ops_nil.
Qed.

Lemma pick_render_overview {A} (f : Event -> option A) (size : Z)
    (overlays : bool) (s : RS) :
  silent f ->
  let items := value (get_items s) in
  let n := Z.of_nat (List.length items) in
  let canvas := Image_new "RGB" (Grid.img_w n size) (Grid.img_h n size) GRID_BG in
  pick f (trace (render_overview output_dir size overlays s)) =
  pick f [ECallGetItems] ++
  match items with
  | [] => []
  | _ :: _ =>
      flat_map (fun name => pick f [ECallRender name size false]) items ++
      pick f [EMakedirs output_dir;
              ESave (overview_path output_dir)
                (value (place_cells n size 0 items canvas (state (get_items s))))]
  end.
Proof.
  intros Hf items n canvas. subst items n canvas.
  destruct (get_items s) as [[[| x rest] s1] out] eqn:E; cbn [value state fst snd].
  - rewrite (render_overview_empty _ _ _ _ _ _ E). cbn [trace snd].
    change (ECallGetItems :: map EPrint out ++ ?l)
      with ([ECallGetItems] ++ map EPrint out ++ l).
    rewrite !pick_app, (pick_prints f out Hf). cbn [pick app].
    rewrite Hf. reflexivity.
  - rewrite (render_overview_nonempty _ _ _ _ _ _ _ _ E). cbn [trace snd].
    change (ECallGetItems :: map EPrint out ++ ?l)
      with ([ECallGetItems] ++ map EPrint out ++ l).
    rewrite !pick_app, (pick_prints f out Hf). cbn [app].
    rewrite compose_overview_eq. cbv zeta. cbn [trace snd].
    rewrite pick_app.
    fold (trace (place_cells (Z.of_nat (List.length (x :: rest))) size 0
                   (x :: rest)
                   (Image_new "RGB"
                      (Grid.img_w (Z.of_nat (List.length (x :: rest))) size)
                      (Grid.img_h (Z.of_nat (List.length (x :: rest))) size)
                      GRID_BG) s1)).
    rewrite (pick_place_cells f _ _ _ Hf).
    change [EMakedirs output_dir; ESave ?p ?i; EPrint ?l]
      with ([EMakedirs output_dir; ESave p i] ++ [EPrint l]).
    rewrite pick_app.
    assert (Hp : forall l, pick f [EPrint l] = [])
      by (intros l; apply (pick_prints f [l] Hf)).
    rewrite Hp, app_nil_r. reflexivity.
Qed.

Lemma flat_map_one {A B} (g : A -> B) (l : list A) :
  flat_map (fun x => [g x]) l = map g l.
Proof. induction l as [| x l IH]; [reflexivity|]. cbn. rewrite IH. reflexivity. Qed.

Lemma flat_map_none {A B} (l : list A) :
  flat_map (fun _ : A => @nil B) l = [].
Proof. induction l as [| x l IH]; [reflexivity | exact IH]. Qed.

Lemma flat_map_optional {A B} (g : A -> option B) (l : list A) :
  map fst (flat_map (fun x => match g x with
                              | Some b => [(x, b)]
                              | None => []
                              end) l)
  = filter (fun x => is_some (g x)) l.
Proof.
  induction l as [| x l IH]; [reflexivity|].
  cbn [flat_map filter]. rewrite map_app, IH.
  destruct (g x); reflexivity.
Qed.

Lemma no_save_selected {A} (f : Event -> option A) (size : Z) (overlays : bool) :
  (forall path img, f (ESave path img) = None) ->
  forall name s,
    match value (render_item name size overlays s) with
    | Some img => pick f [ESave (item_path output_dir name) img]
    | None => []
    end = [].
Proof.
  intros Hf name s. destruct (value (render_item name size overlays s));
    [cbn; rewrite Hf|]; reflexivity.
Qed.

Lemma pick_target_items {A} (f : Event -> option A)
    (items : option (list string)) (s : RS) :
  silent f ->
  pick f (trace (target_items items s)) =
    match items with
    | Some (_ :: _) => []
    | _ => pick f [ECallGetItems]
    end /\
  value (target_items items s) =
    match items with
    | Some (x :: rest) => x :: rest
    | _ => value (get_items s)
    end.
Proof.
  intros Hf.
  assert (Hcall : pick f (trace (call_get_items s)) = pick f [ECallGetItems]
                  /\ value (call_get_items s) = value (get_items s)).
  { destruct (get_items s) as [[l s1] out] eqn:E.
    rewrite (call_get_items_run _ _ _ _ E). cbn [trace value fst snd].
    change (ECallGetItems :: map EPrint out)
      with ([ECallGetItems] ++ map EPrint out).
    rewrite pick_app, (pick_prints f out Hf), app_nil_r. split; reflexivity. }
  destruct items as [[| x rest] |]; cbn [target_items]; try exact Hcall.
  split; reflexivity.
Qed.

Lemma pick_stages {A} (f : Event -> option A) (items : option (list string))
    (size : Z) (overlays overview_only no_overview : bool) (s : RS) :
  silent f ->
  pick f (trace (requested_stages output_dir items size overlays overview_only
                   no_overview s)) =
  if overview_only
  then pick f (trace (render_overview output_dir GRID_CELL_SIZE overlays s))
  else
    let t := target_items items s in
    let r := render_items output_dir (value t) size overlays (state t) in
    pick f (trace t) ++ pick f (trace r) ++
    (if no_overview then []
     else pick f (trace (render_overview output_dir GRID_CELL_SIZE overlays
                           (state r)))).
Proof.
  intros Hf. destruct overview_only.
  - rewrite stages_overview_only. cbv zeta. cbn [trace snd].
    change (EPrint ?l :: ?t) with ([EPrint l] ++ t).
    rewrite pick_app. cbn [pick]. rewrite Hf. reflexivity.
  - cbv zeta. unfold requested_stages. rewrite !bind_eq.
    cbn [trace value state fst snd emit].
    rewrite !pick_app. cbn [pick]. rewrite !Hf. cbn [app].
    f_equal. f_equal.
    destruct no_overview; cbn [negb].
    + reflexivity.
    + rewrite bind_eq. cbn [trace value state fst snd emit].
      rewrite pick_app. cbn [pick]. rewrite Hf. reflexivity.
Qed.

Lemma pick_run {A} (f : Event -> option A) (items : option (list string))
    (size : Z) (overlays overview_only no_overview : bool) (s : RS) :
  silent f ->
  pick f (trace (run output_dir items size overlays overview_only no_overview s))
  = pick f [ECallLoad] ++
    (if value (load_artifact s)
     then pick f (trace (requested_stages output_dir items size overlays
                           overview_only no_overview (state (load_artifact s))))
     else []).
Proof.
  intros Hf.
  assert (Hp : forall l, pick f [EPrint l] = [])
    by (intros l; apply (pick_prints f [l] Hf)).
  destruct (load_artifact s) as [[[|] s1] out] eqn:E; cbn [value state fst snd].
  - rewrite (run_loaded _ _ _ _ _ _ _ _ _ E). cbv zeta. cbn [trace snd].
    change (EPrint ?l :: ECallLoad :: map EPrint out ++ ?t)
      with ([EPrint l] ++ [ECallLoad] ++ map EPrint out ++ t).
    rewrite !pick_app, (pick_prints f out Hf), !Hp, app_nil_r. reflexivity.
  - rewrite (run_load_failed _ _ _ _ _ _ _ _ _ E). cbn [trace snd].
    change (EPrint ?l :: ECallLoad :: map EPrint out ++ ?t)
      with ([EPrint l] ++ [ECallLoad] ++ map EPrint out ++ t).
    rewrite !pick_app, (pick_prints f out Hf), !Hp. reflexivity.
Qed.

Lemma silent_render_call : silent as_render_call.
Proof. intros line. reflexivity. Qed.
Lemma silent_save : silent as_save.
Proof. intros line. reflexivity. Qed.
Lemma silent_load : silent as_load.
Proof. intros line. reflexivity. Qed.
Lemma silent_listing : silent as_listing.
Proof. intros line. reflexivity. Qed.
Lemma silent_makedirs : silent as_makedirs.
Proof. intros line. reflexivity. Qed.

Lemma render_calls_render_items (names : list string) (size : Z)
    (overlays : bool) (s : RS) :
  render_calls (trace (render_items output_dir names size overlays s))
  = map (fun name => (name, size, overlays)) names.
Proof.
  unfold render_calls.
  rewrite (pick_render_items as_render_call (fun _ => []) _ _ _ _
             silent_render_call
             (no_save_selected as_render_call size overlays
                (fun _ _ => eq_refl))).
  cbn [pick as_render_call app]. apply flat_map_one.
Qed.

Lemma saves_render_items (f : string -> option Image) (names : list string)
    (size : Z) (overlays : bool) (s : RS) :
  (forall name s', value (render_item name size overlays s') = f name) ->
  saves (trace (render_items output_dir names size overlays s))
  = flat_map (fun name => match f name with
                          | Some img => [(item_path output_dir name, img)]
                          | None => []
                          end) names.
Proof.
  intros Hres. unfold saves.
  rewrite (pick_render_items as_save
             (fun name => match f name with
                          | Some img => [(item_path output_dir name, img)]
                          | None => []
                          end) _ _ _ _ silent_save).
  - reflexivity.
  - intros name s'. rewrite Hres. destruct (f name); reflexivity.
Qed.

Lemma saved_paths_render_items (f : string -> option Image)
    (names : list string) (size : Z) (overlays : bool) (s : RS) :
  (forall name s', value (render_item name size overlays s') = f name) ->
  saved_paths (trace (render_items output_dir names size overlays s))
  = map (item_path output_dir) (filter (fun name => is_some (f name)) names).
Proof.
  intros Hres. unfold saved_paths. rewrite (saves_render_items f _ _ _ _ Hres).
  induction names as [| x l IH]; [reflexivity|].
  cbn [flat_map filter]. rewrite map_app, IH.
  destruct (f x); reflexivity.
Qed.

Lemma render_calls_render_overview (size : Z) (overlays : bool) (s : RS) :
  render_calls (trace (render_overview output_dir size overlays s))
  = map (fun name => (name, size, false)) (value (get_items s)).
Proof.
  unfold render_calls.
  rewrite (pick_render_overview as_render_call _ _ _ silent_render_call).
  cbv zeta. destruct (value (get_items s)) as [| x rest]; [reflexivity|].
  cbn [pick as_render_call app]. rewrite app_nil_r. apply flat_map_one.
Qed.

Lemma saves_render_overview (size : Z) (overlays : bool) (s : RS) :
  let items := value (get_items s) in
  let n := Z.of_nat (List.length items) in
  let canvas := Image_new "RGB" (Grid.img_w n size) (Grid.img_h n size) GRID_BG in
  saves (trace (render_overview output_dir size overlays s))
  = match items with
    | [] => []
    | _ :: _ =>
        [(overview_path output_dir,
          value (place_cells n size 0 items canvas (state (get_items s))))]
    end.
Proof.
  cbv zeta. unfold saves.
  rewrite (pick_render_overview as_save _ _ _ silent_save). cbv zeta.
  destruct (value (get_items s)) as [| x rest]; [reflexivity|].
  cbn [pick as_save app]. rewrite flat_map_none. reflexivity.
Qed.

(** X9. The single-item pipeline asks for the output directory once,
    then calls [render_item] once for each name it was given, in the
    order given and with the size and overlay flag it was given; it
    does so whether or not the name is one [get_items] lists, and it
    calls neither [get_items] nor [load_artifact]. *)
Theorem X9_single_item_pipeline_schedule (names : list string) (size : Z)
    (overlays : bool) (s : RS) :
  let t := trace (render_items output_dir names size overlays s) in
  render_calls t = map (fun name => (name, size, overlays)) names /\
  made_dirs t = [output_dir] /\
  listings t = [] /\
  loads t = [].
Proof.
  cbv zeta. split; [apply render_calls_render_items|].
  unfold made_dirs, listings, loads.
  rewrite (pick_render_items as_makedirs (fun _ => []) _ _ _ _ silent_makedirs
             (no_save_selected as_makedirs size overlays (fun _ _ => eq_refl))).
  rewrite (pick_render_items as_listing (fun _ => []) _ _ _ _ silent_listing
             (no_save_selected as_listing size overlays (fun _ _ => eq_refl))).
  rewrite (pick_render_items as_load (fun _ => []) _ _ _ _ silent_load
             (no_save_selected as_load size overlays (fun _ _ => eq_refl))).
  cbn [pick as_makedirs as_listing as_load app].
  rewrite !flat_map_none. repeat split.
Qed.

(** X10. When what [render_item] returns for a name does not depend on
    the renderer state, the single-item pipeline writes exactly one
    file for each given name that has a picture, in the order given:
    that picture, under the name's path; names without a picture are
    passed over, and a name given twice is written twice. *)
Theorem X10_single_item_files (f : string -> option Image)
    (names : list string) (size : Z) (overlays : bool) (s : RS) :
  (forall name s', value (render_item name size overlays s') = f name) ->
  let t := trace (render_items output_dir names size overlays s) in
  saves t = flat_map (fun name => match f name with
                                  | Some img => [(item_path output_dir name, img)]
                                  | None => []
                                  end) names /\
  saved_paths t
    = map (item_path output_dir) (filter (fun name => is_some (f name)) names).
Proof.
  intros Hres. cbv zeta. split.
  - apply saves_render_items. exact Hres.
  - apply (saved_paths_render_items f). exact Hres.
Qed.

(** X11. [render_overview] calls [get_items] once and then
    [render_item] once for each listed name, in list order, always with
    overlays off, whatever its own [overlays] argument is; it never
    calls [load_artifact]; and it asks for the directory and writes the
    one overview file exactly when the list is not empty. *)
Theorem X11_overview_schedule (size : Z) (overlays : bool) (s : RS) :
  let t := trace (render_overview output_dir size overlays s) in
  let items := value (get_items s) in
  render_calls t = map (fun name => (name, size, false)) items /\
  listings t = [tt] /\
  loads t = [] /\
  made_dirs t = match items with [] => [] | _ :: _ => [output_dir] end /\
  saved_paths t
    = match items with [] => [] | _ :: _ => [overview_path output_dir] end /\
  render_overview output_dir size overlays s
    = render_overview output_dir size (negb overlays) s.
Proof.
  cbv zeta. split; [apply render_calls_render_overview|].
  unfold listings, loads, made_dirs, saved_paths.
  rewrite saves_render_overview. cbv zeta.
  rewrite (pick_render_overview as_listing _ _ _ silent_listing).
  rewrite (pick_render_overview as_load _ _ _ silent_load).
  rewrite (pick_render_overview as_makedirs _ _ _ silent_makedirs).
  cbv zeta.
  destruct (value (get_items s)) as [| x rest];
    cbn [pick as_listing as_load as_makedirs app map fst];
    rewrite ?flat_map_none; repeat split.
Qed.




(** X13. Every run calls [load_artifact] exactly once, and does so
    before anything but its first message. *)
Theorem X13_load_called_once_and_first (items : option (list string))
    (size : Z) (overlays overview_only no_overview : bool) (s : RS) :
  let t := trace (run output_dir items size overlays overview_only
                    no_overview s) in
  loads t = [tt] /\
  exists rest : list Event,
    t = EPrint "Loading artifact..." :: ECallLoad :: rest /\ loads rest = [].
Proof.
  cbv zeta.
  assert (Hstages : forall s1,
            loads (trace (requested_stages output_dir items size overlays
                            overview_only no_overview s1)) = []).
  { intros s1. unfold loads. rewrite (pick_stages as_load) by apply silent_load.
    cbv zeta.
    rewrite !(pick_render_overview as_load _ _ _ silent_load).
    rewrite (pick_render_items as_load (fun _ => []) _ _ _ _ silent_load
               (no_save_selected as_load size overlays (fun _ _ => eq_refl))).
    destruct (pick_target_items as_load items s1 silent_load) as [-> _].
    cbv zeta. cbn [pick as_load app]. rewrite ?flat_map_none.
    repeat match goal with
           | |- context [match ?l with [] => _ | _ :: _ => _ end] =>
               destruct l; cbn [pick as_load app]; rewrite ?flat_map_none
           | |- context [if ?b then _ else _] => destruct b
           | |- context [match ?o with Some _ => _ | None => _ end] =>
               destruct o
           end; reflexivity. }
  assert (Hp : forall out, loads (map EPrint out) = [])
    by (intros out; apply pick_prints, silent_load).
  destruct (load_artifact s) as [[[|] s1] out] eqn:E.
  - rewrite (run_loaded _ _ _ _ _ _ _ _ _ E). cbv zeta. cbn [trace snd].
    assert (Hrest : loads (map EPrint out ++
                           trace (requested_stages output_dir items size
                                    overlays overview_only no_overview s1)
                           ++ [EPrint "Done."]) = []).
    { unfold loads in *. rewrite !pick_app, Hp, Hstages. reflexivity. }
    split; [|eexists; split; [reflexivity | exact Hrest]].
    unfold loads in *. cbn [pick as_load]. rewrite Hrest. reflexivity.
  - rewrite (run_load_failed _ _ _ _ _ _ _ _ _ E). cbn [trace snd].
    assert (Hrest : loads (map EPrint out
                           ++ [EPrint "Error: Failed to load artifact"]) = []).
    { unfold loads in *. rewrite pick_app, Hp. reflexivity. }
    split; [|eexists; split; [reflexivity | exact Hrest]].
    unfold loads in *. cbn [pick as_load]. rewrite Hrest. reflexivity.
Qed.

(** X14. How often a run asks [get_items]: not at all after a failed
    load; once in an overview-only run; otherwise once for the
    single-item stage unless a non-empty item list was passed, plus
    once for the overview unless it is switched off.  A run over a given
    non-empty list with [no_overview] never asks. *)
Theorem X14_listing_calls (items : option (list string)) (size : Z)
    (overlays overview_only no_overview : bool) (s : RS) :
  listings (trace (run output_dir items size overlays overview_only
                     no_overview s))
  = if value (load_artifact s) then
      if overview_only then [tt]
      else match items with Some (_ :: _) => [] | _ => [tt] end
           ++ (if no_overview then [] else [tt])
    else [].
Proof.
  unfold listings. rewrite (pick_run as_listing) by apply silent_listing.
  cbn [pick as_listing app].
  destruct (value (load_artifact s)); [|reflexivity].
  rewrite (pick_stages as_listing) by apply silent_listing. cbv zeta.
  rewrite !(pick_render_overview as_listing _ _ _ silent_listing).
  rewrite (pick_render_items as_listing (fun _ => []) _ _ _ _ silent_listing
             (no_save_selected as_listing size overlays (fun _ _ => eq_refl))).
  destruct (pick_target_items as_listing items (state (load_artifact s))
              silent_listing) as [-> _].
  cbv zeta. cbn [pick as_listing app]. rewrite ?flat_map_none.
  repeat match goal with
         | |- context [match ?l with [] => _ | _ :: _ => _ end] =>
             destruct l; cbn [pick as_listing app]; rewrite ?flat_map_none
         | |- context [if ?b then _ else _] => destruct b
         | |- context [match ?o with Some _ => _ | None => _ end] =>
             destruct o
         end; reflexivity.
Qed.

(** The paths of the files the stages after loading write, for a
    renderer whose list and pictures do not depend on its state. *)
Lemma stages_saved_paths (f : string -> Z -> bool -> option Image)
    (all : list string) (items : option (list string)) (size : Z)
    (overlays overview_only no_overview : bool) (s : RS) :
  (forall name sz ov s', value (render_item name sz ov s') = f name sz ov) ->
  (forall s', value (get_items s') = all) ->
  let targets := match items with Some (x :: rest) => x :: rest | _ => all end in
  saved_paths (trace (requested_stages output_dir items size overlays
                        overview_only no_overview s))
  = (if overview_only then []
     else map (item_path output_dir)
            (filter (fun name => is_some (f name size overlays)) targets))
    ++ (if (overview_only || negb no_overview)%bool
        then match all with [] => [] | _ :: _ => [overview_path output_dir] end
        else []).
Proof.
  intros Hres Hitems targets.
  assert (Hov : forall s1,
            map fst (pick as_save
                       (trace (render_overview output_dir GRID_CELL_SIZE overlays
                                 s1)))
            = match all with [] => [] | _ :: _ => [overview_path output_dir] end).
  { intros s1. fold (saves (trace (render_overview output_dir GRID_CELL_SIZE
                                     overlays s1))).
    rewrite saves_render_overview. cbv zeta. rewrite Hitems.
    destruct all; reflexivity. }
  unfold saved_paths, saves.
  rewrite (pick_stages as_save) by apply silent_save. cbv zeta.
  destruct overview_only; cbn [orb].
  - apply Hov.
  - destruct (pick_target_items as_save items s silent_save) as [Ht Hv].
    rewrite Ht, Hv, Hitems. fold targets.
    replace (match items with Some (_ :: _) => [] | _ => pick as_save [ECallGetItems] end)
      with (@nil (string * Image)) by (destruct items as [[| ? ?] |]; reflexivity).
    cbn [app]. rewrite map_app.
    fold (saves (trace (render_items output_dir targets size overlays
                          (state (target_items items s))))).
    fold (saved_paths (trace (render_items output_dir targets size overlays
                          (state (target_items items s))))).
    rewrite (saved_paths_render_items (fun name => f name size overlays))
      by (intros; apply Hres).
    f_equal. destruct no_overview; cbn [negb]; [reflexivity | apply Hov].
Qed.

(** X15. The calls of [render_item] in a run over a renderer whose
    item list does not change: none after a failed load; otherwise the
    single-item stage (skipped by [overview_only]) calls it for each
    target name with the run's size and overlay flag, the targets being
    the item list passed in if it is non-empty and the renderer's list
    if not, and then the overview (skipped by [no_overview] unless
    [overview_only] is set) calls it for each name of the renderer's
    list at [GRID_CELL_SIZE] with overlays off. *)
Theorem X15_render_call_schedule (all : list string)
    (items : option (list string)) (size : Z)
    (overlays overview_only no_overview : bool) (s : RS) :
  (forall s', value (get_items s') = all) ->
  let targets := match items with Some (x :: rest) => x :: rest | _ => all end in
  render_calls (trace (run output_dir items size overlays overview_only
                         no_overview s))
  = if value (load_artifact s) then
      (if overview_only then []
       else map (fun name => (name, size, overlays)) targets)
      ++ (if (overview_only || negb no_overview)%bool
          then map (fun name => (name, GRID_CELL_SIZE, false)) all
          else [])
    else [].
Proof.
  intros Hitems targets.
  assert (Hov : forall s1,
            pick as_render_call
              (trace (render_overview output_dir GRID_CELL_SIZE overlays s1))
            = map (fun name => (name, GRID_CELL_SIZE, false)) all).
  { intros s1. fold (render_calls (trace (render_overview output_dir
                                            GRID_CELL_SIZE overlays s1))).
    rewrite render_calls_render_overview, Hitems. reflexivity. }
  unfold render_calls.
  rewrite (pick_run as_render_call) by apply silent_render_call.
  cbn [pick as_render_call app].
  destruct (value (load_artifact s)); [|reflexivity].
  rewrite (pick_stages as_render_call) by apply silent_render_call. cbv zeta.
  destruct overview_only; cbn [orb].
  - apply Hov.
  - destruct (pick_target_items as_render_call items (state (load_artifact s))
                silent_render_call) as [Ht Hv].
    rewrite Ht, Hv, Hitems. fold targets.
    replace (match items with
             | Some (_ :: _) => []
             | _ => pick as_render_call [ECallGetItems]
             end)
      with (@nil (string * Z * bool))
      by (destruct items as [[| ? ?] |]; reflexivity).
    cbn [app].
    fold (render_calls
            (trace (render_items output_dir targets size overlays
                      (state (target_items items (state (load_artifact s))))))).
    rewrite render_calls_render_items.
    f_equal. destruct no_overview; cbn [negb]; [reflexivity | apply Hov].
Qed.

(** X16. The files a run writes, in order, over a renderer whose item
    list and pictures do not depend on its state: nothing after a failed
    load; otherwise one file for each target name that has a picture at
    the run's size and overlay flag (none in an overview-only run), then
    the overview file, provided the overview is not switched off and the
    renderer's list is not empty. *)
Theorem X16_files_written (f : string -> Z -> bool -> option Image)
    (all : list string) (items : option (list string)) (size : Z)
    (overlays overview_only no_overview : bool) (s : RS) :
  (forall name sz ov s', value (render_item name sz ov s') = f name sz ov) ->
  (forall s', value (get_items s') = all) ->
  let targets := match items with Some (x :: rest) => x :: rest | _ => all end in
  saved_paths (trace (run output_dir items size overlays overview_only
                        no_overview s))
  = if value (load_artifact s) then
      (if overview_only then []
       else map (item_path output_dir)
              (filter (fun name => is_some (f name size overlays)) targets))
      ++ (if (overview_only || negb no_overview)%bool
          then match all with [] => [] | _ :: _ => [overview_path output_dir] end
          else [])
    else [].
Proof.
  intros Hres Hitems targets. unfold saved_paths, saves.
  rewrite (pick_run as_save) by apply silent_save. cbn [pick as_save app].
  destruct (value (load_artifact s)); [|reflexivity].
  apply (stages_saved_paths f all); assumption.
Qed.

Lemma file_after_last (ws : list (string * Image)) (path : string)
    (img : Image) :
  file_after (ws ++ [(path, img)]) path = Some img.
Proof.
  induction ws as [| [p i] ws IH]; cbn [app file_after].
  - rewrite String.eqb_refl. reflexivity.
  - rewrite IH. reflexivity.
Qed.

(** What a full run writes after a successful load: the pictures of the
    targets, then the overview canvas. *)
Lemma full_run_saves (f : string -> Z -> bool -> option Image)
    (all : list string) (items : option (list string)) (size : Z)
    (overlays : bool) (s : RS) :
  (forall name sz ov s', value (render_item name sz ov s') = f name sz ov) ->
  (forall s', value (get_items s') = all) ->
  value (load_artifact s) = true ->
  let targets := match items with Some (x :: rest) => x :: rest | _ => all end in
  let n := Z.of_nat (List.length all) in
  let canvas :=
    Image_new "RGB" (Grid.img_w n GRID_CELL_SIZE) (Grid.img_h n GRID_CELL_SIZE)
      GRID_BG in
  saves (trace (run output_dir items size overlays false false s))
  = flat_map (fun name => match f name size overlays with
                          | Some img => [(item_path output_dir name, img)]
                          | None => []
                          end) targets
    ++ match all with
       | [] => []
       | _ :: _ =>
           [(overview_path output_dir,
             draw_ops canvas
               (cells_ops (fun name => f name GRID_CELL_SIZE false) n
                  GRID_CELL_SIZE 0 all))]
       end.
Proof.
  intros Hres Hitems Hload targets n canvas. unfold saves.
  rewrite (pick_run as_save) by apply silent_save. cbn [pick as_save app].
  rewrite Hload.
  rewrite (pick_stages as_save) by apply silent_save. cbv zeta.
  destruct (pick_target_items as_save items (state (load_artifact s))
              silent_save) as [Ht Hv].
  rewrite Ht, Hv, Hitems. fold targets.
  replace (match items with Some (_ :: _) => [] | _ => pick as_save [ECallGetItems] end)
    with (@nil (string * Image)) by (destruct items as [[| ? ?] |]; reflexivity).
  cbn [app].
  fold (saves (trace (render_items output_dir targets size overlays
                        (state (target_items items (state (load_artifact s))))))).
  rewrite (saves_render_items (fun name => f name size overlays))
    by (intros; apply Hres).
  f_equal.
  match goal with
  | |- pick as_save (trace ?m) = _ => fold (saves (trace m))
  end.
  rewrite saves_render_overview. cbv zeta. rewrite Hitems.
  destruct all as [| x rest] eqn:E; [reflexivity|].
  rewrite (place_cells_value (fun name => f name GRID_CELL_SIZE false))
    by (intros; apply Hres).
  reflexivity.
Qed.

(** X20. An item file and the overview file are the same file exactly
    when the item's sanitized name is [overview].  In a full run over a
    renderer whose list, not empty, and pictures do not depend on its
    state, such an item's picture is written first and the overview is
    the last file written, to the same path: after the run the file
    holds the overview canvas, with one pasted picture and one label for
    each listed name that has a picture, not the item's picture. *)
Theorem X20_overview_name_clash (f : string -> Z -> bool -> option Image)
    (all : list string) (items : option (list string)) (size : Z)
    (overlays : bool) (s : RS) (name : string) (img : Image) :
  (item_path output_dir name = overview_path output_dir
   <-> safe_name name = "overview"%string) /\
  ((forall name sz ov s', value (render_item name sz ov s') = f name sz ov) ->
   (forall s', value (get_items s') = all) ->
   value (load_artifact s) = true ->
   all <> [] ->
   let targets := match items with Some (x :: rest) => x :: rest | _ => all end in
   let n := Z.of_nat (List.length all) in
   let written := saves (trace (run output_dir items size overlays false false s)) in
   In name targets ->
   f name size overlays = Some img ->
   safe_name name = "overview"%string ->
   exists (before : list (string * Image)) (canvas : Image),
     written = before ++ [(overview_path output_dir, canvas)] /\
     In (item_path output_dir name, img) before /\
     canvas = draw_ops (Image_new "RGB" (Grid.img_w n GRID_CELL_SIZE)
                          (Grid.img_h n GRID_CELL_SIZE) GRID_BG)
                (cells_ops (fun name => f name GRID_CELL_SIZE false) n
                   GRID_CELL_SIZE 0 all) /\
     file_after written (item_path output_dir name) = Some canvas).
Proof.
  split; [apply item_path_is_overview_path|].
  intros Hres Hitems Hload Hall targets n written Hin Himg Hname.
  subst written.
  rewrite (full_run_saves f all items size overlays s Hres Hitems Hload).
  cbv zeta. fold targets. fold n.
  destruct all as [| x rest] eqn:E; [contradiction|]. rewrite <- E.
  eexists _, _. split; [reflexivity|]. split; [|split; [reflexivity|]].
  - apply in_flat_map. exists name. split; [exact Hin|].
    rewrite Himg. left. reflexivity.
  - apply (proj2 (item_path_is_overview_path output_dir name)) in Hname.
    rewrite Hname. apply file_after_last.
Qed.

End Schedule.

(** ** The example renderer and the command line *)

Section ExampleFacts.
Local Open Scope string_scope.

Lemma existsb_eqb_In (x : string) (xs : list string) :
  existsb (String.eqb x) xs = true <-> In x xs.
Proof.
  rewrite existsb_exists. split.
  - intros (y & Hy & E). apply String.eqb_eq in E. subst. exact Hy.
  - intros H. exists x. split; [exact H | apply String.eqb_refl].
Qed.


Lemma not_an_example_item :
  ~ In "spinner" Example.EXAMPLE_ITEMS.
Proof.
  cbn. intros H. repeat (destruct H as [H | H]; [discriminate H|]). exact H.
Qed.

(** X17. [index_or_zero] is [list.index] with a fallback: for a name
    on the list it is the position of the first occurrence, and for
    any other name it is 0, the position of the first item. *)
Theorem X17_index_or_zero (x : string) (xs : list string) :
  (In x xs ->
   0 <= Example.index_or_zero x xs < Z.of_nat (List.length xs) /\
   nth_error xs (Z.to_nat (Example.index_or_zero x xs)) = Some x /\
   forall j : nat,
     (j < Z.to_nat (Example.index_or_zero x xs))%nat -> nth_error xs j <> Some x) /\
  (~ In x xs -> Example.index_or_zero x xs = 0).
Proof.
  induction xs as [| y rest IH]; [split; [contradiction | reflexivity]|].
  cbn [Example.index_or_zero].
  destruct (String.eqb_spec y x) as [-> | Hne].
  - split; [|intros H; exfalso; apply H; left; reflexivity].
    intros _. cbn [List.length nth_error Z.to_nat]. split; [lia|].
    split; [reflexivity|]. intros j Hj. cbn in Hj. lia.
  - destruct (existsb (String.eqb x) rest) eqn:E.
    + apply existsb_eqb_In in E. destruct IH as [IH _].
      destruct (IH E) as (Hb & Hn & Hfirst).
      split; [|intros H; exfalso; apply H; right; exact E].
      intros _. cbn [List.length]. split; [lia|].
      replace (Z.to_nat (1 + Example.index_or_zero x rest))
        with (S (Z.to_nat (Example.index_or_zero x rest))) by lia.
      split; [exact Hn|].
      intros [| j] Hj; cbn [nth_error]; [congruence|].
      apply Hfirst. lia.
    + split; [|reflexivity].
      intros [-> | H]; [contradiction|].
      apply existsb_eqb_In in H. congruence.
Qed.

Lemma X17_index_or_zero_witness :
  nth_error Example.EXAMPLE_ITEMS
    (Z.to_nat (Example.index_or_zero "card" Example.EXAMPLE_ITEMS))
    = Some "card" /\
  Example.index_or_zero "spinner" Example.EXAMPLE_ITEMS = 0.
Proof.
  destruct (X17_index_or_zero "card" Example.EXAMPLE_ITEMS) as [Hin _].
  destruct (X17_index_or_zero "spinner" Example.EXAMPLE_ITEMS) as [_ Hout].
  assert (Hcard : In "card" Example.EXAMPLE_ITEMS) by (cbn; tauto).
  destruct (Hin Hcard) as (_ & Hnth & _).
  exact (conj Hnth (Hout not_an_example_item)).
Defined.








End ExampleFacts.

(** ** The schedule on a renderer with a missing picture *)

Section ScheduleInstances.
Local Open Scope string_scope.

Lemma X10_single_item_files_witness :
  saved_paths (trace (render_items (R := Table.TableRenderer Table.flaky) "out"
                        ["a"; "b/c"; "d"; "a"] 64 true 0%nat))
  = ["out/a.png"; "out/d.png"; "out/a.png"].
Proof.
  destruct (X10_single_item_files (R := Table.TableRenderer Table.flaky) "out"
              (fun name => if existsb (String.eqb name) ["b/c"] then None
                           else Some (Table.blank 64))
              ["a"; "b/c"; "d"; "a"] 64 true 0%nat (fun _ _ => eq_refl))
    as [_ Hpaths].
  exact Hpaths.
Defined.


Lemma X15_render_call_schedule_witness :
  render_calls (trace (run (R := Table.TableRenderer Table.flaky) "out"
                         (Some ["x"]) 32 true false false 0%nat))
  = [("x", 32, true); ("a", 120, false); ("b/c", 120, false); ("d", 120, false)].
Proof.
  exact (X15_render_call_schedule (R := Table.TableRenderer Table.flaky) "out"
           ["a"; "b/c"; "d"] (Some ["x"]) 32 true false false 0%nat
           (fun _ => eq_refl)).
Defined.

Lemma X16_files_written_witness :
  saved_paths (trace (run (R := Table.TableRenderer Table.flaky) "out" None 32
                        true false false 0%nat))
  = ["out/a.png"; "out/d.png"; "out/overview.png"].
Proof.
  exact (X16_files_written (R := Table.TableRenderer Table.flaky) "out"
           (fun name sz _ => if existsb (String.eqb name) ["b/c"] then None
                             else Some (Table.blank sz))
           ["a"; "b/c"; "d"] None 32 true false false 0%nat
           (fun _ _ _ _ => eq_refl) (fun _ => eq_refl)).
Defined.

Lemma X20_overview_name_clash_witness :
  item_path "build/previews" "overview" = "build/previews/overview.png" /\
  item_path "build/previews" "card" <> overview_path "build/previews" /\
  exists canvas : Image,
    saves (trace (run (R := Table.TableRenderer Table.flaky) "build/previews"
                    (Some ["overview"]) 32 true false false 0%nat))
      = [("build/previews/overview.png", Table.blank 32);
         ("build/previews/overview.png", canvas)] /\
    file_after
      (saves (trace (run (R := Table.TableRenderer Table.flaky) "build/previews"
                       (Some ["overview"]) 32 true false false 0%nat)))
      "build/previews/overview.png" = Some canvas /\
    canvas <> Table.blank 32.
Proof.
  pose (f := fun (name : string) (sz : Z) (_ : bool) =>
               if existsb (String.eqb name) ["b/c"] then None
               else Some (Table.blank sz)).
  destruct (X20_overview_name_clash (R := Table.TableRenderer Table.flaky)
              "build/previews" f ["a"; "b/c"; "d"] (Some ["overview"]) 32 true
              0%nat "overview" (Table.blank 32)) as [[_ Hsame] Hrun].
  destruct (X20_overview_name_clash (R := Table.TableRenderer Table.flaky)
              "build/previews" f ["a"; "b/c"; "d"] None 32 true
              0%nat "card" (Table.blank 32)) as [[Hdiff _] _].
  split; [exact (Hsame eq_refl)|].
  split; [intros E; specialize (Hdiff E); discriminate Hdiff|].
  destruct (Hrun (fun _ _ _ _ => eq_refl) (fun _ => eq_refl) eq_refl
              ltac:(discriminate) (or_introl eq_refl) eq_refl eq_refl)
    as (before & canvas & Hw & _ & Hc & Hfile).
  exists canvas. split; [|split; [exact Hfile|]].
  - rewrite Hc. reflexivity.
  - rewrite Hc. discriminate.
Defined.

End ScheduleInstances.
